(** * maws/utils.py: asset download, hash validation and archive extraction

    A shallow embedding of [src/maws/utils.py].  The Python functions are
    written as computations over an explicit [World] (a file system and an
    I/O trace) in a small state-and-exception monad.  The collaborators that
    live outside the module ([hashlib], [tarfile], [zipfile], [gzip],
    [os.path.abspath], the transfer backend, the torch cache location) are
    gathered in the record [Libs] and stay abstract in every theorem. *)

From Stdlib Require Import String Ascii List NArith ZArith Bool Lia.
From Stdlib Require Import Init.Byte.
From stdpp Require Import gmap strings.
Import ListNotations.

Local Open Scope string_scope.

(** ** Python strings *)

Module Str.

(** [s.endswith(suffix)]: [s] is [suffix], or what follows the first
    character of [s] ends with [suffix]. *)
Fixpoint endswith (s suffix : string) : bool :=
  String.eqb s suffix ||
  match s with
  | EmptyString => false
  | String _ r => endswith r suffix
  end.

(** [s.startswith(p)] *)
Definition startswith (s p : string) : bool := String.prefix p s.

(** [s[:-k]] for a positive [k] *)
Definition drop_last (k : nat) (s : string) : string :=
  substring 0 (String.length s - k) s.

(** [s.rstrip("/")] *)
Fixpoint rstrip_slash (s : string) : string :=
  match s with
  | EmptyString => EmptyString
  | String c r =>
      match rstrip_slash r with
      | EmptyString => if Ascii.eqb c "/" then EmptyString else String c EmptyString
      | r' => String c r'
      end
  end.

(** [(s[:i], s[i:])] with [i = s.rfind("/") + 1] *)
Fixpoint rpartition_slash (s : string) : string * string :=
  match s with
  | EmptyString => (EmptyString, EmptyString)
  | String c r =>
      match rpartition_slash r with
      | (EmptyString, t) =>
          if Ascii.eqb c "/" then (String c EmptyString, t)
          else (EmptyString, String c t)
      | (h, t) => (String c h, t)
      end
  end.

(** truthiness of a string: [bool(s)] *)
Definition truthy (s : string) : bool := negb (String.eqb s "").

(** [needle in s] *)
Fixpoint contains (needle s : string) : bool :=
  String.prefix needle s ||
  match s with
  | EmptyString => false
  | String _ r => contains needle r
  end.

End Str.

(** ** [os.path] (posixpath) *)

Module Path.

(** [os.path.join(a, b)] *)
Definition join (a b : string) : string :=
  if Str.startswith b "/" then b
  else if String.eqb a "" || Str.endswith a "/" then a ++ b
  else a ++ "/" ++ b.

(** [os.path.split(p)] *)
Definition split (p : string) : string * string :=
  let '(head, tail) := Str.rpartition_slash p in
  let head :=
    if Str.truthy head && Str.truthy (Str.rstrip_slash head)
    then Str.rstrip_slash head else head in
  (head, tail).

(** [os.path.dirname(p)] *)
Definition dirname (p : string) : string := fst (split p).

End Path.

(** ** The file system and the I/O trace

    The file system is a finite map from path strings to entries, regular
    files and directories.  There are no links, a file may be stored
    under a path whose parent is not stored, and two spellings of a path
    are two names, except that trailing slashes do not count. *)

Abbreviation bytes := (list Byte.byte).

Inductive node : Type :=
| File (content : bytes)
| Dir.

Inductive event : Type :=
| EvOpen (path mode : string)
| EvRead (path : string) (size : N)
| EvWrite (path : string) (data : bytes)
| EvClose (path : string)
| EvMakedirs (path : string)
| EvAcquire (lock : string)
| EvRelease (lock : string)
| EvTransfer (url destination : string).

(** [fs] maps a path to what is stored under it; [trace] lists the I/O
    performed so far, oldest first; [busy] holds the lock files another
    process keeps for longer than [LOCK_TIMEOUT].  Logging is not part of
    the trace.  [OutOfFuel] below is not a Python exception: it marks the
    iteration bound of a [while True] loop of the embedding, and the
    lemmas on the loops show that it is never raised. *)
Record World : Type := mkWorld {
  fs : gmap string node;
  trace : list event;
  busy : gset string;
}.

Definition emit (e : event) (w : World) : World :=
  {| fs := fs w; trace := trace w ++ [e]; busy := busy w |}.

(** [emits tr w]: the world [w] after the events [tr]. *)
Definition emits (tr : list event) (w : World) : World :=
  {| fs := fs w; trace := trace w ++ tr; busy := busy w |}.

Definition set_fs (m : gmap string node) (w : World) : World :=
  {| fs := m; trace := trace w; busy := busy w |}.

(** The name under which an entry is stored: trailing slashes do not
    count, and a path made of slashes only is the root. *)
Definition node_key (p : string) : string :=
  match Str.rstrip_slash p with
  | EmptyString => if Str.truthy p then "/" else ""
  | k => k
  end.

(** [os.stat(p)]: the empty path names nothing, and a path with a trailing
    slash names a directory or nothing. *)
Definition stat (m : gmap string node) (p : string) : option node :=
  if Str.truthy p then
    match m !! node_key p with
    | Some (File c) => if Str.endswith p "/" then None else Some (File c)
    | o => o
    end
  else None.

(** [os.path.exists(p)] *)
Definition path_exists (w : World) (p : string) : bool :=
  match stat (fs w) p with Some _ => true | None => false end.

(** [os.path.isfile(p)] *)
Definition path_isfile (w : World) (p : string) : bool :=
  match stat (fs w) p with Some (File _) => true | _ => false end.

(** The content of the regular file stored under [p], if there is one. *)
Definition read_file (w : World) (p : string) : option bytes :=
  match stat (fs w) p with Some (File c) => Some c | _ => None end.

(** A file can be created or truncated under [p]: [p] names something,
    not a directory. *)
Definition writable (w : World) (p : string) : bool :=
  Str.truthy p && negb (Str.endswith p "/") &&
  match fs w !! node_key p with Some Dir => false | _ => true end.

(** ** Exceptions and the monad of the embedding *)

Inductive exn : Type :=
| ValueError
| RuntimeError (msg : string)
| NotImplementedError (msg : string)
| AssertionError (msg : string)
| OSError (msg : string)
| FileNotFoundError (path : string)
| IsADirectoryError (path : string)
| FileExistsError (path : string)
| Timeout (lock : string)
| BadGzipFile
| EOFError
| ZlibError
| ReadError
| BadZipFile
| TransferError (url : string)
| AttributeError
| OutOfFuel.

Inductive result (A : Type) : Type :=
| Ok (a : A)
| Raise (e : exn).
Arguments Ok {A} a.
Arguments Raise {A} e.

Definition M (A : Type) : Type := World -> World * result A.

Definition ret {A} (a : A) : M A := fun w => (w, Ok a).
Definition raise {A} (e : exn) : M A := fun w => (w, Raise e).
Definition bind {A B} (m : M A) (k : A -> M B) : M B :=
  fun w =>
    match m w with
    | (w', Ok a) => k a w'
    | (w', Raise e) => (w', Raise e)
    end.
Definition tell (e : event) : M unit := fun w => (emit e w, Ok tt).

(** [try: m finally: cleanup] *)
Definition finally {A} (m : M A) (cleanup : M unit) : M A :=
  fun w =>
    match m w with
    | (w', r) =>
        match cleanup w' with
        | (w'', Ok _) => (w'', r)
        | (w'', Raise e) => (w'', Raise e)
        end
    end.

Declare Scope py_scope.
Delimit Scope py_scope with py.
Notation "x <- m ;; k" := (bind m (fun x => k))
  (at level 100, m at next level, right associativity) : py_scope.
Notation "m ;;; k" := (bind m (fun _ => k))
  (at level 100, right associativity) : py_scope.
Local Open Scope py_scope.

(** ** File objects *)

(** [split_at n l = (l[:n], l[n:])] *)
Fixpoint split_at {A} (n : N) (l : list A) : list A * list A :=
  match l with
  | [] => ([], [])
  | x :: t =>
      if N.eqb n 0 then ([], l)
      else let '(a, b) := split_at (N.pred n) t in (x :: a, b)
  end.

(** A file opened for reading: its name and the bytes not yet read. *)
Record reader : Type := mkReader {
  r_name : string;
  r_rest : bytes;
}.

(** [open(path, "rb")] *)
Definition open_rb (path : string) : M reader :=
  fun w =>
    let w := emit (EvOpen path "rb") w in
    match stat (fs w) path with
    | Some (File c) => (w, Ok (mkReader path c))
    | Some Dir => (w, Raise (IsADirectoryError path))
    | None => (w, Raise (FileNotFoundError path))
    end.

(** [file_obj.read(size)] *)
Definition read (size : N) (f : reader) : M (bytes * reader) :=
  fun w =>
    let '(chunk, rest) := split_at size (r_rest f) in
    (emit (EvRead (r_name f) size) w, Ok (chunk, mkReader (r_name f) rest)).

(** [file_obj.close()] *)
Definition close (path : string) : M unit := tell (EvClose path).

(** [open(path, "wb")]: creates the file or truncates it. *)
Definition open_wb (path : string) : M string :=
  fun w =>
    let w := emit (EvOpen path "wb") w in
    if negb (Str.truthy path) then (w, Raise (FileNotFoundError path))
    else if Str.endswith path "/" then (w, Raise (IsADirectoryError path))
    else match fs w !! node_key path with
         | Some Dir => (w, Raise (IsADirectoryError path))
         | _ => (set_fs (<[node_key path := File []]> (fs w)) w, Ok path)
         end.

(** [d_file.write(block)]: appends to the file behind the handle. *)
Definition write (path : string) (block : bytes) : M unit :=
  fun w =>
    let w := emit (EvWrite path block) w in
    match fs w !! node_key path with
    | Some (File c) => (set_fs (<[node_key path := File (c ++ block)]> (fs w)) w, Ok tt)
    | _ => (w, Raise (OSError "bad file descriptor"))
    end.

(** [os.makedirs(path, exist_ok=exist_ok)] on a path whose ancestors are
    directories or can be made: the file system stores no hierarchy, so
    the directory is stored under its own name, and how [os.makedirs]
    fails when an ancestor is a regular file is not part of the model. *)
Definition makedirs (path : string) (exist_ok : bool) : M unit :=
  fun w =>
    let w := emit (EvMakedirs path) w in
    match fs w !! node_key path with
    | None =>
        if Str.truthy path
        then (set_fs (<[node_key path := Dir]> (fs w)) w, Ok tt)
        else (w, Raise (FileNotFoundError path))
    | Some Dir => if exist_ok then (w, Ok tt) else (w, Raise (FileExistsError path))
    | Some (File _) => (w, Raise (FileExistsError path))
    end.

(** [os.path.exists(path)] as a computation *)
Definition os_path_exists (path : string) : M bool :=
  fun w => (w, Ok (path_exists w path)).

(** The subclasses of [OSError] among the exceptions. *)
Definition is_OSError (e : exn) : bool :=
  match e with
  | OSError _ | FileNotFoundError _ | IsADirectoryError _ | FileExistsError _ => true
  | _ => false
  end.

(** [try: m except OSError: raise e] *)
Definition except_OSError {A} (m : M A) (e : exn) : M A :=
  fun w =>
    match m w with
    | (w', Raise e') => if is_OSError e' then (w', Raise e) else (w', Raise e')
    | r => r
    end.

Definition LOCK_TIMEOUT : N := 600.

(** [lock.acquire()] on a [FileLock(lock, timeout=timeout)]: a lock file
    in [busy] is held by another process for more than any [timeout]. *)
Definition acquire (lock : string) (timeout : N) : M unit :=
  fun w =>
    if decide (lock ∈ busy w) then (w, Raise (Timeout lock))
    else (emit (EvAcquire lock) w, Ok tt).

Definition release (lock : string) : M unit := tell (EvRelease lock).

(** [with FileLock(lock, timeout=timeout): body] *)
Definition with_FileLock {A} (lock : string) (timeout : N) (body : M A) : M A :=
  acquire lock timeout ;;; finally body (release lock).

(** ** Archive members *)

Inductive tar_type : Type :=
| REGTYPE | AREGTYPE | LNKTYPE | SYMTYPE | CHRTYPE | BLKTYPE
| DIRTYPE | FIFOTYPE | CONTTYPE | GNUTYPE_SPARSE.

Record TarInfo : Type := mkTarInfo {
  name : string;
  type : tar_type;
  linkname : string;
  payload : bytes;
}.

(** [TarInfo.isfile()] *)
Definition isfile (m : TarInfo) : bool :=
  match type m with
  | REGTYPE | AREGTYPE | CONTTYPE | GNUTYPE_SPARSE => true
  | _ => false
  end.


(** ** The collaborators of the module *)

(** [abspath], [expanduser]: [os.path], which depend on the working
    directory and the environment.  [_get_torch_home]: [torch.hub].
    [hexdigest alg data]: the hex digest [hashlib] computes with algorithm
    [alg] over [data].  [get_local_path url destination]: the transfer
    backend [_DATASET_DOWNLOAD_MANAGER] of [_download_hooks], which fetches
    [url] into [destination].  [tar_members], [zip_namelist]: the members
    [tarfile] and [zipfile] find in the bytes of an archive, [None] when
    the bytes are no such archive.  [tar_extract member to_path],
    [zip_extract archive member to_path]: [TarFile.extract] and
    [ZipFile.extract].  [gunzip]: the bytes a gzip stream decompresses to,
    and whether the stream ends cleanly.  [gzip_error]: the exception
    [gzip] raises where a stream that does not end cleanly stops
    decompressing, [EOFError] for a truncated stream, [BadGzipFile] for a
    bad header or checksum, [zlib.error] for damaged data. *)
Record Libs : Type := mkLibs {
  abspath : string -> string;
  expanduser : string -> string;
  _get_torch_home : string;
  hexdigest : string -> bytes -> string;
  get_local_path : string -> string -> M unit;
  tar_members : bytes -> option (list TarInfo);
  tar_extract : TarInfo -> string -> M unit;
  zip_namelist : bytes -> option (list string);
  zip_extract : bytes -> string -> string -> M unit;
  gunzip : bytes -> bytes * bool;
  gzip_error : bytes -> exn;
}.

Section Utils.

Context (L : Libs).

Definition _CACHE_DIR : string :=
  expanduser L (Path.join (_get_torch_home L) "text").

(** [get_lock_dir()] *)
Definition get_lock_dir : M string :=
  let lock_dir := Path.join _CACHE_DIR "locks" in
  ex <- os_path_exists lock_dir ;;
  (if negb ex then makedirs lock_dir true else ret tt) ;;;
  ret lock_dir.

(** *** [validate_file] *)

(** A [hashlib] object: the algorithm and the bytes fed to it so far. *)
Record hash_obj : Type := mkHash {
  h_alg : string;
  h_fed : bytes;
}.

Definition update (h : hash_obj) (chunk : bytes) : hash_obj :=
  mkHash (h_alg h) (h_fed h ++ chunk).

(** The [while True] loop of [validate_file]; [fuel] bounds the number of
    non-empty chunks. *)
Fixpoint hash_loop (fuel : nat) (file_obj : reader) (hash_func : hash_obj)
  : M (reader * hash_obj) :=
  got <- read (1024 ^ 2) file_obj ;;
  let '(chunk, file_obj) := got in
  match chunk with
  | [] => ret (file_obj, hash_func)
  | _ =>
      let hash_func := update hash_func chunk in
      match fuel with
      | O => raise OutOfFuel
      | S fuel => hash_loop fuel file_obj hash_func
      end
  end.

Definition validate_file (file_obj : reader) (hash_value hash_type : string)
  : M (bool * reader) :=
  hash_func <-
    (if String.eqb hash_type "sha256" || String.eqb hash_type "md5"
     then ret (mkHash hash_type [])
     else raise ValueError) ;;
  fed <-
    hash_loop (length (r_rest file_obj)) file_obj hash_func ;;
  let '(file_obj, hash_func) := fed in
  ret (String.eqb (hexdigest L (h_alg hash_func) (h_fed hash_func)) hash_value,
       file_obj).

(** *** [_check_hash] *)

Definition hash_mismatch_message (path : string) : string :=
  "The hash of " ++ abspath L path
  ++ " does not match. Delete the file manually and retry.".

Definition _check_hash (path hash_value hash_type : string) : M unit :=
  file_obj <- open_rb path ;;
  finally
    (checked <- validate_file file_obj hash_value hash_type ;;
     let '(valid, _) := checked in
     if negb valid then raise (RuntimeError (hash_mismatch_message path))
     else ret tt)
    (close path).

(** *** [download_from_url] *)

(** [if hash_value:] on an optional string *)
Definition supplied (hash_value : option string) : option string :=
  match hash_value with
  | Some h => if Str.truthy h then Some h else None
  | None => None
  end.

Definition check_if_supplied (path : string) (hash_value : option string)
  (hash_type : string) : M unit :=
  match supplied hash_value with
  | Some h => _check_hash path h hash_type
  | None => ret tt
  end.

(** "figure out filename and root": the destination, its directory and
    its file name. *)
Definition destination (url : string) (path : option string) (root : string)
  : string * string * string :=
  match path with
  | None =>
      let filename := snd (Path.split url) in
      let root := abspath L root in
      (Path.join root filename, root, filename)
  | Some path =>
      let path := abspath L path in
      let '(root, filename) := Path.split (abspath L path) in
      (path, root, filename)
  end.

Definition download_from_url (url : string) (path : option string)
  (root : string) (overwrite : bool) (hash_value : option string)
  (hash_type : string) : M string :=
  let '(path, root, filename) := destination url path root in
  lock_dir <- get_lock_dir ;;
  with_FileLock (Path.join lock_dir (filename ++ ".lock")) LOCK_TIMEOUT
    (let download :=
       root_exists <- os_path_exists root ;;
       (if negb root_exists
        then except_OSError (makedirs root false)
               (OSError ("Can't create the download directory " ++ root ++ "."))
        else ret tt) ;;;
       tell (EvTransfer url path) ;;;
       get_local_path L url path ;;;
       check_if_supplied path hash_value hash_type ;;;
       ret path in
     path_exists <- os_path_exists path ;;
     if path_exists then
       if negb overwrite then
         check_if_supplied path hash_value hash_type ;;;
         ret path
       else download
     else download).

(** Names for the statements about [download_from_url]: the destination
    and the lock file of a call, the predicate [hash_type in ("sha256",
    "md5")], and the transfers recorded in a trace. *)
Definition destination_path (url : string) (path : option string)
  (root : string) : string :=
  fst (fst (destination url path root)).

Definition destination_root (url : string) (path : option string)
  (root : string) : string :=
  snd (fst (destination url path root)).

Definition destination_filename (url : string) (path : option string)
  (root : string) : string :=
  snd (destination url path root).

Definition lock_dir : string := Path.join _CACHE_DIR "locks".

Definition lock_path (filename : string) : string :=
  Path.join lock_dir (filename ++ ".lock").

Definition supported (hash_type : string) : bool :=
  String.eqb hash_type "sha256" || String.eqb hash_type "md5".

Fixpoint transfers (tr : list event) : list (string * string) :=
  match tr with
  | [] => []
  | EvTransfer url destination :: tr => (url, destination) :: transfers tr
  | _ :: tr => transfers tr
  end.

(** *** [get_asset_local_path] *)

Definition get_asset_local_path (asset_path : string) (overwrite : bool)
  : M string :=
  ex <- os_path_exists asset_path ;;
  if ex then ret asset_path
  else download_from_url asset_path None _CACHE_DIR overwrite None "sha256".

(** *** [extract_archive] *)

(** [tarfile.open(from_path, "r")]: the members of the archive. *)
Definition tarfile_open (from_path : string) : M (list TarInfo) :=
  file_obj <- open_rb from_path ;;
  match tar_members L (r_rest file_obj) with
  | Some tar => ret tar
  | None => close from_path ;;; raise ReadError
  end.

(** The [for file_ in tar] loop. *)
Fixpoint tar_loop (tar : list TarInfo) (to_path : string) (overwrite : bool)
  (files : list string) : M (list string) :=
  match tar with
  | [] => ret files
  | file_ :: tar =>
      let file_path := Path.join to_path (name file_) in
      let extract files :=
        tar_extract L file_ to_path ;;;
        tar_loop tar to_path overwrite files in
      if isfile file_ then
        let files := (files ++ [file_path])%list in
        ex <- os_path_exists file_path ;;
        if ex then
          if negb overwrite then tar_loop tar to_path overwrite files
          else extract files
        else extract files
      else extract files
  end.

(** [zipfile.is_zipfile(from_path)] *)
Definition is_zipfile (from_path : string) : M bool :=
  fun w =>
    match read_file w from_path with
    | Some c =>
        (emit (EvClose from_path) (emit (EvOpen from_path "rb") w),
         Ok (match zip_namelist L c with Some _ => true | None => false end))
    | None => (w, Ok false)
    end.

(** [zipfile.ZipFile(from_path, "r")]: the archive and its name list. *)
Definition ZipFile (from_path : string) : M (bytes * list string) :=
  file_obj <- open_rb from_path ;;
  match zip_namelist L (r_rest file_obj) with
  | Some names => ret (r_rest file_obj, names)
  | None => close from_path ;;; raise BadZipFile
  end.

(** The [for file_ in zfile.namelist()] loop. *)
Fixpoint zip_loop (zfile : bytes) (namelist : list string) (to_path : string)
  (overwrite : bool) (files : list string) : M (list string) :=
  match namelist with
  | [] => ret files
  | file_ :: namelist =>
      let file_path := Path.join to_path file_ in
      let files := (files ++ [file_path])%list in
      let extract :=
        zip_extract L zfile file_ to_path ;;;
        zip_loop zfile namelist to_path overwrite files in
      ex <- os_path_exists file_path ;;
      if ex then
        if negb overwrite then zip_loop zfile namelist to_path overwrite files
        else extract
      else extract
  end.

(** [[f for f in files if os.path.isfile(f)]] *)
Definition keep_files (files : list string) : M (list string) :=
  fun w => (w, Ok (List.filter (fun f => path_isfile w f) files)).

(** A gzip stream opened for reading: the decompressed bytes not yet
    read, whether the stream ends cleanly after them, and the exception
    it raises if it does not. *)
Record gz_reader : Type := mkGz {
  g_name : string;
  g_rest : bytes;
  g_clean : bool;
  g_error : exn;
}.

(** [gzip.open(from_path, "rb")] *)
Definition gzip_open (from_path : string) : M gz_reader :=
  file_obj <- open_rb from_path ;;
  let '(content, clean) := gunzip L (r_rest file_obj) in
  ret (mkGz from_path content clean (gzip_error L (r_rest file_obj))).

(** [gzfile.read(size)]: up to [size] bytes, and no bytes at the end of
    a stream that ends cleanly.  On a stream that does not, a call that
    the bytes left cannot fill runs into the damage: it raises, and the
    bytes it had gathered are lost. *)
Definition gz_read (size : N) (gzfile : gz_reader) : M (bytes * gz_reader) :=
  fun w =>
    let w := emit (EvRead (g_name gzfile) size) w in
    match g_rest gzfile with
    | [] =>
        if g_clean gzfile then (w, Ok ([], gzfile))
        else (w, Raise (g_error gzfile))
    | rest =>
        if g_clean gzfile || (size <=? N.of_nat (length rest))%N then
          let '(block, rest) := split_at size rest in
          (w, Ok (block,
                  mkGz (g_name gzfile) rest (g_clean gzfile) (g_error gzfile)))
        else (w, Raise (g_error gzfile))
    end.

Definition default_block_size : N := 65536.

(** The [while True] loop of the gzip branch; it returns the value of
    [block] when the loop is left.  [fuel] bounds the number of non-empty
    blocks. *)
Fixpoint gz_loop (fuel : nat) (gzfile : gz_reader) (d_file : string) : M bytes :=
  got <- gz_read default_block_size gzfile ;;
  let '(block, gzfile) := got in
  match block with
  | [] => ret block
  | _ =>
      write d_file block ;;;
      match fuel with
      | O => raise OutOfFuel
      | S fuel => gz_loop fuel gzfile d_file
      end
  end.

Definition unsupported_message : string :=
  "We currently only support tar.gz, .tgz, .gz and zip achives.".

Definition extract_archive (from_path : string) (to_path : option string)
  (overwrite : bool) : M (list string) :=
  let to_path :=
    match to_path with
    | None => Path.dirname from_path
    | Some to_path => to_path
    end in
  if Str.endswith from_path ".tar.gz" || Str.endswith from_path ".tgz" then
    tar <- tarfile_open from_path ;;
    finally (tar_loop tar to_path overwrite []) (close from_path)
  else if Str.endswith from_path ".zip" then
    valid <- is_zipfile from_path ;;
    if negb valid then raise (AssertionError from_path)
    else
      opened <- ZipFile from_path ;;
      let '(zfile, namelist) := opened in
      files <- finally (zip_loop zfile namelist to_path overwrite [])
                 (close from_path) ;;
      keep_files files
  else if Str.endswith from_path ".gz" then
    let filename := Str.drop_last 3 from_path in
    let files := [filename] in
    gzfile <- gzip_open from_path ;;
    finally
      (d_file <- open_wb filename ;;
       finally
         (block <- gz_loop (length (g_rest gzfile)) gzfile d_file ;;
          write d_file block)
         (close filename))
      (close from_path) ;;;
    ret files
  else raise (NotImplementedError unsupported_message).

(** Names for the statements about [extract_archive]. *)

(** The directory the members are extracted to. *)
Definition target_dir (from_path : string) (to_path : option string) : string :=
  match to_path with
  | None => Path.dirname from_path
  | Some to_path => to_path
  end.

(** The path a tar member is extracted to. *)
Definition member_path (to_path : string) (m : TarInfo) : string :=
  Path.join to_path (name m).






End Utils.

(** ** The inference-mode switch *)

Module Inference.

(** A [torch.inference_mode()] context manager that has been entered
    remembers the mode it has to restore. *)
Record inference_mode : Type := mkMode { prev : bool }.

(** A [contextlib.ExitStack]: the contexts entered through it, the
    last one first. *)
Definition ExitStack : Type := list inference_mode.

(** The module global [_STACK], torch's current mode, and the number
    of contexts entered so far. *)
Record Globals : Type := mkGlobals {
  _STACK : option ExitStack;
  inference_enabled : bool;
  entered : nat;
}.

(** [stack.enter_context(torch.inference_mode())] on a stack [stack] *)
Definition enter_context (stack : ExitStack) (g : Globals) : Globals :=
  {| _STACK := Some (mkMode (inference_enabled g) :: stack);
     inference_enabled := true;
     entered := S (entered g) |}.

(** [stack.close()]: leaves the contexts, the last one entered first. *)
Fixpoint close_stack (stack : ExitStack) (enabled : bool) : bool :=
  match stack with
  | [] => enabled
  | cm :: stack => close_stack stack (prev cm)
  end.

Definition start_inference_mode (device : string) (g : Globals) : Globals :=
  match _STACK g with
  | None => enter_context [] g
  | Some _ => g
  end.

Definition reset_inference_mode (g : Globals) : result Globals :=
  match _STACK g with
  | None => Raise AttributeError
  | Some stack =>
      Ok {| _STACK := None;
            inference_enabled := close_stack stack (inference_enabled g);
            entered := entered g |}
  end.

End Inference.

(** The number of [read] calls [validate_file] makes on a file object
    with [len] bytes left: one for each chunk of [1024 ** 2] bytes, the
    last one possibly shorter, and the one that returns nothing. *)
Definition reads_of (len : nat) : nat :=
  S (N.to_nat ((N.of_nat len + (1024 ^ 2 - 1)) / 1024 ^ 2)).

(** The bytes of [data] that make up its full blocks of [size] bytes: what
    reads of [size] bytes hand out before one of them cannot be filled. *)
Definition full_blocks (size : N) (data : bytes) : bytes :=
  fst (split_at (size * (N.of_nat (length data) / size)) data).

(** ** The reporting hook *)

Module Progress.

(** A [tqdm] progress bar: its total and its counter. *)
Record tqdm : Type := mkTqdm {
  total : option Z;
  n : Z;
}.

(** [t.update(k)] *)
Definition update (t : tqdm) (k : Z) : tqdm := mkTqdm (total t) (n t + k)%Z.

(** The closure that [reporthook(t)] returns: the bar [t] it reports to,
    and the cell [last_b[0]]. *)
Record hook : Type := mkHook {
  bar : tqdm;
  last_b : Z;
}.

Definition reporthook (t : tqdm) : hook := mkHook t 0%Z.

(** [inner(b, bsize, tsize)], called on the closure. *)
Definition inner (b bsize : Z) (tsize : option Z) (h : hook) : hook :=
  let t :=
    match tsize with
    | Some tsize => mkTqdm (Some tsize) (n (bar h))
    | None => bar h
    end in
  let t := update t ((b - last_b h) * bsize)%Z in
  mkHook t b.

(** A download reported block by block: [inner] called with each block
    count in turn, with one block size and no total. *)
Definition report (bsize : Z) (blocks : list Z) (h : hook) : hook :=
  fold_left (fun h b => inner b bsize None h) blocks h.

End Progress.

(** ** Fonts and plots

    [lang_type_to_font_path] and [predict_probs_and_plot] raise two
    exceptions the functions above do not: [KeyError] and
    [UnboundLocalError]. *)

Inductive py_exn : Type :=
| Builtin (e : exn)
| KeyError (key : option string)
| UnboundLocalError (name : string).

Inductive outcome (A : Type) : Type :=
| Returns (a : A)
| Raises (e : py_exn).
Arguments Returns {A} a.
Arguments Raises {A} e.

Definition Py (A : Type) : Type := World -> World * outcome A.

Definition returns {A} (a : A) : Py A := fun w => (w, Returns a).
Definition raises {A} (e : py_exn) : Py A := fun w => (w, Raises e).
Definition and_then {A B} (m : Py A) (k : A -> Py B) : Py B :=
  fun w =>
    match m w with
    | (w', Returns a) => k a w'
    | (w', Raises e) => (w', Raises e)
    end.

(** A computation of the functions above, among these. *)
Definition lift {A} (m : M A) : Py A :=
  fun w =>
    match m w with
    | (w', Ok a) => (w', Returns a)
    | (w', Raise e) => (w', Raises (Builtin e))
    end.

Notation "x <~ m ;; k" := (and_then m (fun x => k))
  (at level 100, m at next level, right associativity) : py_scope.
Notation "m ;;~ k" := (and_then m (fun _ => k))
  (at level 100, right associativity) : py_scope.

(** Reading a local variable that may not have been assigned. *)
Definition load {A} (name : string) (value : option A) : Py A :=
  match value with
  | Some a => returns a
  | None => raises (UnboundLocalError name)
  end.

Section Callers.

Context (L : Libs).

(** The dictionary of [lang_type_to_font_path]; the key [None] is the
    default language type. *)
Definition mapping : gmap (option string) string :=
  <[None :=
      "https://cdn.jsdelivr.net/gh/notofonts/notofonts.github.io/fonts/NotoSans/hinted/ttf/NotoSans-Regular.ttf"]>
  (<[Some "cjk" :=
      "https://github.com/notofonts/noto-cjk/raw/main/Sans/OTF/SimplifiedChinese/NotoSansCJKsc-Regular.otf"]>
  (<[Some "devanagari" :=
      "https://cdn.jsdelivr.net/gh/notofonts/notofonts.github.io/fonts/NotoSansDevanagari/hinted/ttf/NotoSansDevanagari-Regular.ttf"]>
  (<[Some "emoji" :=
      "https://github.com/MorbZ/OpenSansEmoji/raw/master/OpenSansEmoji.ttf"]> ∅))).

Definition lang_type_to_font_path (lang_type : option string) : Py string :=
  match mapping !! lang_type with
  | Some url => lift (get_asset_local_path L url false)
  | None => raises (KeyError lang_type)
  end.

(** The model and the plotting library: [classify_percent model image_path
    texts] is [(model.classify(image_path, texts) * 100).tolist()[0]];
    [subplots_1_2] is [plt.subplots(1, 2, figsize=(12, 6))], which gives
    the figure and the two axes; [plot_probs] is the function of that
    name, which draws with matplotlib. *)
Context {Model Image Probs Figure Axes : Type}.
Context (classify_percent : Model -> string -> list string -> Py Probs).
Context (get_cropped_images : Model -> string -> Py Image).
Context (subplots_1_2 : Py (Figure * (Axes * Axes))).
Context (imshow : Axes -> Image -> Py unit).
Context (axis_off : Axes -> Py unit).
Context (plot_probs :
  list string -> Probs -> Figure * Axes -> option string -> Py unit).

Definition predict_probs_for_image (model : Model) (image_path : string)
  (texts : list string) : Py Probs :=
  image_path <~ lift (get_asset_local_path L image_path false) ;;
  classify_percent model image_path texts.

(** The locals [fig] and [ax_2] are assigned in the branch of
    [if plot_image:] only; [fig_ax] is not read. *)
Definition predict_probs_and_plot (model : Model) (image_path : string)
  (texts : list string) (plot_image : bool) (fig_ax : option (Figure * Axes))
  (lang_type : option string) : Py unit :=
  locals <~
    (if plot_image then
       axes <~ subplots_1_2 ;;
       let '(fig, (ax_1, ax_2)) := axes in
       image <~ get_cropped_images model image_path ;;
       (imshow ax_1 image ;;~
        axis_off ax_1 ;;~
        returns (Some fig, Some ax_2))
     else returns (None, None)) ;;
  let '(fig, ax_2) := locals in
  probs <~ predict_probs_for_image model image_path texts ;;
  fig <~ load "fig" fig ;;
  ax_2 <~ load "ax_2" ax_2 ;;
  plot_probs texts probs (fig, ax_2) lang_type.

End Callers.

(** ** A concrete instance of the collaborators

    A small stand-in for the libraries, used to run the functions on
    concrete inputs: the working directory is [/home/user], the digest of
    a byte string is its hex dump behind the name of the algorithm, an
    archive is recognised by its bytes, and a gzip stream is a two-byte
    magic number followed by the content; a second magic number marks a
    stream that is cut short after the content. *)

Module Demo.

Fixpoint bytes_eqb (a b : bytes) : bool :=
  match a, b with
  | [], [] => true
  | x :: a, y :: b => Byte.eqb x y && bytes_eqb a b
  | _, _ => false
  end.

Definition hex_digit (n : N) : ascii :=
  match n with
  | 0 => "0" | 1 => "1" | 2 => "2" | 3 => "3" | 4 => "4" | 5 => "5"
  | 6 => "6" | 7 => "7" | 8 => "8" | 9 => "9" | 10 => "a" | 11 => "b"
  | 12 => "c" | 13 => "d" | 14 => "e" | _ => "f"
  end%N%char.

Fixpoint hex (data : bytes) : string :=
  match data with
  | [] => ""
  | b :: data =>
      let n := Byte.to_N b in
      String (hex_digit (n / 16)) (String (hex_digit (n mod 16)) (hex data))
  end.

Definition demo_abspath (p : string) : string :=
  if Str.startswith p "/" then p else Path.join "/home/user" p.

Definition put_file (path : string) (content : bytes) : M unit :=
  d_file <- open_wb path ;;
  finally (write d_file content) (close path).

(** One resource is on line. *)
Definition demo_url : string := "https://example.org/assets/font.ttf".
Definition demo_font : bytes := [x00; x01; x00; x00].

Definition demo_get_local_path (url destination : string) : M unit :=
  if String.eqb url demo_url then put_file destination demo_font
  else raise (TransferError url).

(** One tar archive, one zip archive. *)
Definition demo_tar_bytes : bytes := [x75; x73; x74; x61; x72].
Definition demo_tar : list TarInfo :=
  [ mkTarInfo "data" DIRTYPE "" [];
    mkTarInfo "data/a.txt" REGTYPE "" [x61];
    mkTarInfo "data/b.txt" REGTYPE "" [x62; x62] ].

(** A tar archive with a hard link: [data/b.txt] is a link to
    [data/a.txt]. *)
Definition link_tar_bytes : bytes := [x6c; x69; x6e; x6b].
Definition link_tar : list TarInfo :=
  [ mkTarInfo "data/a.txt" REGTYPE "" [x61];
    mkTarInfo "data/b.txt" LNKTYPE "data/a.txt" [] ].

Definition demo_tar_members (c : bytes) : option (list TarInfo) :=
  if bytes_eqb c demo_tar_bytes then Some demo_tar
  else if bytes_eqb c link_tar_bytes then Some link_tar
  else None.

(** [TarFile._find_link_target]: the member a hard link points to. *)
Definition demo_find_link_target (m : TarInfo) : option TarInfo :=
  List.find (fun m' => String.eqb (name m') (linkname m)) link_tar.

(** [TarFile.extract], as [tarfile] extracts a regular file, a directory
    and a hard link ([makefile], [makedir], [makelink]).  For a hard
    link, [os.link] makes the link when the file it points to is on disk
    and nothing is at the path of the link; when [os.link] fails, as it
    does when something is at the path, or the file is not on disk, the
    member the link points to is extracted to the path of the link
    instead, as a file is: what was there is rewritten. *)
Definition demo_tar_extract (m : TarInfo) (to_path : string) : M unit :=
  let target := Path.join to_path (name m) in
  if isfile m then put_file target (payload m)
  else match type m with
       | DIRTYPE =>
           fun w =>
             match fs w !! node_key target with
             | None =>
                 if Str.truthy target
                 then (set_fs (<[node_key target := Dir]> (fs w)) w, Ok tt)
                 else (w, Ok tt)
             | Some _ => (w, Ok tt)
             end
       | LNKTYPE =>
           fun w =>
             match read_file w (Path.join to_path (linkname m)),
                   path_exists w target with
             | Some c, false => put_file target c w
             | _, _ =>
                 match demo_find_link_target m with
                 | Some m' => put_file target (payload m') w
                 | None =>
                     (w, Raise (OSError "unable to resolve link inside archive"))
                 end
             end
       | _ => raise (OSError "device members are not supported")
       end.

Definition demo_zip_bytes : bytes := [x50; x4b; x03; x04].
Definition demo_zip : list (string * bytes) :=
  [ ("docs/", []); ("docs/readme.txt", [x68; x69]);
    ("a.txt", [x61]) ].

Definition demo_zip_namelist (c : bytes) : option (list string) :=
  if bytes_eqb c demo_zip_bytes then Some (map fst demo_zip) else None.

Fixpoint assoc (k : string) (l : list (string * bytes)) : option bytes :=
  match l with
  | [] => None
  | (k', v) :: l => if String.eqb k k' then Some v else assoc k l
  end.

Definition demo_zip_extract (zfile : bytes) (member to_path : string) : M unit :=
  let target := Path.join to_path member in
  match assoc member demo_zip with
  | None => raise (OSError "no such member")
  | Some content =>
      if Str.endswith member "/" then
        fun w =>
          match fs w !! node_key target with
          | None => (set_fs (<[node_key target := Dir]> (fs w)) w, Ok tt)
          | Some _ => (w, Ok tt)
          end
      else put_file target content
  end.

Definition demo_gunzip (c : bytes) : bytes * bool :=
  match c with
  | x1f :: x8b :: content => (content, true)
  | x1f :: x8c :: content => (content, false)
  | _ => ([], false)
  end.

Definition demo_gzip_error (c : bytes) : exn :=
  match c with
  | x1f :: x8c :: _ => EOFError
  | _ => BadGzipFile
  end.

Definition libs : Libs :=
  {| abspath := demo_abspath;
     expanduser := fun p => p;
     _get_torch_home := "/home/user/.cache/torch";
     hexdigest := fun alg data => alg ++ ":" ++ hex data;
     get_local_path := demo_get_local_path;
     tar_members := demo_tar_members;
     tar_extract := demo_tar_extract;
     zip_namelist := demo_zip_namelist;
     zip_extract := demo_zip_extract;
     gunzip := demo_gunzip;
     gzip_error := demo_gzip_error |}.

Definition world (files : list (string * node)) : World :=
  {| fs := list_to_map files; trace := []; busy := ∅ |}.

(** The worlds the functions are run in below. *)

(** A gzip file whose content is "abc". *)
Definition gz_bytes : bytes := [x1f; x8b; x61; x62; x63].
Definition gz_world : World := world [("/d/x.gz", File gz_bytes)].

(** A file whose sha256 digest is "sha256:61". *)
Definition file_world : World := world [("/d/f", File [x61])].

(** The font is already in the download directory. *)
Definition font_path : string := "/home/user/.data/font.ttf".
Definition cached_world : World := world [(font_path, File demo_font)].



(** The zip archive, and a directory where [a.txt] would go. *)
Definition zip_world : World :=
  world [("/t/a.zip", File demo_zip_bytes); ("/out/a.txt", Dir)].

(** The lock directory and the download directory exist, the font has
    not been fetched. *)
Definition lock_dir_path : string := "/home/user/.cache/torch/text/locks".
Definition fresh_world : World :=
  world [(lock_dir_path, Dir); ("/home/user/.data", Dir)].

(** The font has been fetched, the lock directory is there. *)
Definition locked_world : World :=
  world [(lock_dir_path, Dir); (font_path, File demo_font)].

(** Another process holds the lock of the font. *)
Definition font_lock : string := "/home/user/.cache/torch/text/locks/font.ttf.lock".
Definition busy_world : World :=
  {| fs := list_to_map [(font_path, File demo_font)];
     trace := [];
     busy := {[font_lock]} |}.

(** A gzip file that is cut short, next to an older output; a file with
    a .zip name that is no zip archive; a directory where the output of
    [/d/y.gz] would go. *)
Definition odd_world : World :=
  world [("/d/x.gz", File [x00; x61]); ("/d/x", File [x7a; x7a]);
         ("/d/n.zip", File [x61]); ("/d/n.tgz", File [x61]);
         ("/d/y.gz", File gz_bytes); ("/d/y", Dir)].

(** A tar archive of the two text files, without the directory entry,
    and the libraries that read it. *)
Definition flat_tar_bytes : bytes := [x66; x6c; x61; x74].
Definition flat_tar : list TarInfo :=
  [ mkTarInfo "data/a.txt" REGTYPE "" [x61];
    mkTarInfo "data/b.txt" REGTYPE "" [x62; x62] ].

Definition flat_libs : Libs :=
  {| abspath := demo_abspath;
     expanduser := fun p => p;
     _get_torch_home := "/home/user/.cache/torch";
     hexdigest := fun alg data => alg ++ ":" ++ hex data;
     get_local_path := demo_get_local_path;
     tar_members :=
       fun c => if bytes_eqb c flat_tar_bytes then Some flat_tar else None;
     tar_extract := demo_tar_extract;
     zip_namelist := demo_zip_namelist;
     zip_extract := demo_zip_extract;
     gunzip := demo_gunzip;
     gzip_error := demo_gzip_error |}.

(** Everything the zip archive and the flat tar archive hold is on disk. *)
Definition extracted_world : World :=
  world [("/t/a.zip", File demo_zip_bytes); ("/out/docs", Dir);
         ("/out/docs/readme.txt", File [x7a]); ("/out/a.txt", File [x7a]);
         ("/t/f.tgz", File flat_tar_bytes);
         ("/out/data/a.txt", File [x7a]); ("/out/data/b.txt", File [x7a])].

End Demo.

(** * Properties *)

(** ** Strings and paths *)

Example join_like_posixpath :
  Path.join "/out" "data/a.txt" = "/out/data/a.txt"
  /\ Path.join "/out/" "a.txt" = "/out/a.txt"
  /\ Path.join "" "a.txt" = "a.txt"
  /\ Path.join "/out" "/etc/passwd" = "/etc/passwd"
  /\ Path.join "/out" "docs/" = "/out/docs/".
Proof. repeat split. Qed.

Example split_like_posixpath :
  Path.split "/a/b/c.txt" = ("/a/b", "c.txt")
  /\ Path.split "c.txt" = ("", "c.txt")
  /\ Path.split "/c" = ("/", "c")
  /\ Path.split "a//" = ("a", "")
  /\ Path.dirname "x/y.gz" = "x"
  /\ Path.split "https://example.org/assets/font.ttf"
     = ("https://example.org/assets", "font.ttf").
Proof. repeat split. Qed.

Example suffixes_and_slices :
  Str.endswith "a.tar.gz" ".gz" = true
  /\ Str.endswith "gz" ".gz" = false
  /\ Str.endswith "a.tgz" ".gz" = false
  /\ Str.drop_last 3 "ab.gz" = "ab"
  /\ Str.drop_last 3 "gz" = "".
Proof. repeat split. Qed.

Lemma endswith_app (s suffix : string) :
  Str.endswith s suffix = true <-> exists p, s = p ++ suffix.
Proof.
  induction s as [|c s IH].
  - change (Str.endswith "" suffix) with (String.eqb "" suffix || false).
    rewrite orb_false_r, String.eqb_eq. split.
    + intros <-. now exists "".
    + intros [p Hp]. destruct p; simpl in Hp; [easy | discriminate].
  - change (Str.endswith (String c s) suffix)
      with (String.eqb (String c s) suffix || Str.endswith s suffix).
    rewrite orb_true_iff, String.eqb_eq, IH. split.
    + intros [<- | [p ->]]; [now exists "" | now exists (String c p)].
    + intros [p Hp]. destruct p as [|a p]; simpl in Hp.
      * now left.
      * right. injection Hp as _ ->. now exists p.
Qed.

Lemma gz_is_not_zip (s : string) :
  Str.endswith s ".gz" = true -> Str.endswith s ".zip" = false.
Proof.
  intros Hgz. apply not_true_is_false. intros Hzip.
  apply endswith_app in Hgz as [p Hp], Hzip as [q Hq]. subst s.
  revert q Hq. induction p as [|a p IH]; intros q Hq.
  - do 5 (destruct q as [|? q]; simpl in Hq; try discriminate).
  - destruct q as [|b q]; simpl in Hq.
    + do 5 (destruct p as [|? p]; simpl in Hq; try discriminate).
    + injection Hq as _ Hq. now apply (IH q).
Qed.

Lemma split_at_app {A} (n : N) (l : list A) :
  forall a b, split_at n l = (a, b) -> l = (a ++ b)%list.
Proof.
  revert n. induction l as [|x t IH]; intros n a b; simpl.
  - now intros [= <- <-].
  - destruct (N.eqb n 0); [now intros [= <- <-] |].
    destruct (split_at (N.pred n) t) as [a' b'] eqn:E.
    intros [= <- <-]. simpl. f_equal. now apply (IH (N.pred n)).
Qed.

Lemma split_at_cons {A} (n : N) (x : A) (t : list A) :
  n <> 0%N ->
  exists a b, split_at n (x :: t) = (x :: a, b) /\ t = (a ++ b)%list.
Proof.
  intros Hn. simpl. apply N.eqb_neq in Hn. rewrite Hn.
  destruct (split_at (N.pred n) t) as [a b] eqn:E.
  exists a, b. split; [reflexivity | now apply (split_at_app (N.pred n))].
Qed.

(** ** Worlds *)

Lemma emit_emits (e : event) (w : World) : emit e w = emits [e] w.
Proof. reflexivity. Qed.

Lemma emits_emits (a b : list event) (w : World) :
  emits b (emits a w) = emits (a ++ b) w.
Proof. unfold emits; simpl. now rewrite <- app_assoc. Qed.


(** ** Running a computation step by step *)

Lemma bind_ok {A B} (m : M A) (k : A -> M B) (w w' : World) (a : A) :
  m w = (w', Ok a) -> bind m k w = k a w'.
Proof. intros H. unfold bind. now rewrite H. Qed.

Lemma finally_close {A} (m : M A) (p : string) (w w' : World) (r : result A) :
  m w = (w', r) -> finally m (close p) w = (emit (EvClose p) w', r).
Proof. intros H. unfold finally. now rewrite H. Qed.

Lemma open_rb_file (p : string) (c : bytes) (w : World) :
  read_file w p = Some c ->
  open_rb p w = (emit (EvOpen p "rb") w, Ok (mkReader p c)).
Proof.
  unfold read_file, open_rb. cbn [fs emit].
  destruct (stat (fs w) p) as [[c'|]|]; congruence.
Qed.

Lemma open_wb_writable (p : string) (w : World) :
  writable w p = true ->
  open_wb p w =
  (set_fs (<[node_key p := File []]> (fs w)) (emit (EvOpen p "wb") w), Ok p).
Proof.
  unfold writable, open_wb. cbn [fs emit]. intros H.
  apply andb_prop in H as [H Hdir]. apply andb_prop in H as [-> Hslash].
  apply negb_true_iff in Hslash. rewrite Hslash. cbn [negb].
  destruct (fs w !! node_key p) as [[c|]|]; congruence.
Qed.

Lemma write_file (d : string) (block c : bytes) (w : World) :
  fs w !! node_key d = Some (File c) ->
  write d block w =
  (set_fs (<[node_key d := File (c ++ block)]> (fs w)) (emit (EvWrite d block) w),
   Ok tt).
Proof. intros H. unfold write. cbn [fs emit]. now rewrite H. Qed.

(** ** [validate_file] and [_check_hash] *)

Section Hashing.

Context (L : Libs).

Lemma hash_loop_eq (fuel : nat) (file_obj : reader) (hash_func : hash_obj) :
  hash_loop fuel file_obj hash_func =
  (got <- read (1024 ^ 2) file_obj ;;
   let '(chunk, file_obj) := got in
   match chunk with
   | [] => ret (file_obj, hash_func)
   | _ =>
       let hash_func := update hash_func chunk in
       match fuel with
       | O => raise OutOfFuel
       | S fuel => hash_loop fuel file_obj hash_func
       end
   end).
Proof. destruct fuel; reflexivity. Qed.

(** The loop feeds every remaining byte to the hash object, in order,
    and touches nothing but the trace. *)
Lemma hash_loop_spec (n : string) (fuel : nat) :
  forall (rest : bytes) (h : hash_obj) (w : World),
    length rest <= fuel ->
    exists k,
      hash_loop fuel (mkReader n rest) h w =
      (emits (repeat (EvRead n (1024 ^ 2)) (S k)) w,
       Ok (mkReader n [], mkHash (h_alg h) (h_fed h ++ rest))).
Proof.
  induction fuel as [|fuel IH]; intros rest h w Hlen;
    rewrite hash_loop_eq; unfold bind, read; cbn [r_rest r_name].
  - destruct rest; [|simpl in Hlen; lia].
    exists 0. cbn. rewrite app_nil_r. now destruct h.
  - destruct rest as [|x t].
    + exists 0. cbn. rewrite app_nil_r. now destruct h.
    + destruct (split_at_cons (1024 ^ 2) x t) as (a & b & -> & ->); [easy|].
      unfold update.
      destruct (IH b (mkHash (h_alg h) (h_fed h ++ x :: a))
                  (emit (EvRead n (1024 ^ 2)) w)) as [k Hk].
      { simpl in Hlen. rewrite length_app in Hlen. lia. }
      exists (S k). rewrite Hk. cbn [h_alg h_fed].
      rewrite emit_emits, emits_emits, <- app_assoc. reflexivity.
Qed.

(** An unsupported algorithm is rejected before the first [read]. *)
Lemma validate_file_unsupported (file_obj : reader) (hash_value hash_type : string)
  (w : World) :
  String.eqb hash_type "sha256" || String.eqb hash_type "md5" = false ->
  validate_file L file_obj hash_value hash_type w = (w, Raise ValueError).
Proof. intros H. unfold validate_file, bind. now rewrite H. Qed.

(** With a supported algorithm the whole file is hashed and compared. *)
Lemma validate_file_supported (n : string) (c : bytes) (hash_value hash_type : string)
  (w : World) :
  String.eqb hash_type "sha256" || String.eqb hash_type "md5" = true ->
  exists k,
    validate_file L (mkReader n c) hash_value hash_type w =
    (emits (repeat (EvRead n (1024 ^ 2)) (S k)) w,
     Ok (String.eqb (hexdigest L hash_type c) hash_value, mkReader n [])).
Proof.
  intros H. unfold validate_file, bind at 1. rewrite H. unfold ret at 1.
  cbn [r_rest]. unfold bind.
  destruct (hash_loop_spec n (length c) c (mkHash hash_type []) w) as [k Hk];
    [lia|].
  exists k. rewrite Hk. reflexivity.
Qed.

Lemma check_hash_unsupported (path hash_value hash_type : string) (c : bytes)
  (w : World) :
  read_file w path = Some c ->
  String.eqb hash_type "sha256" || String.eqb hash_type "md5" = false ->
  _check_hash L path hash_value hash_type w =
  (emits [EvOpen path "rb"; EvClose path] w, Raise ValueError).
Proof.
  intros Hc Hty. unfold _check_hash, bind, open_rb, finally.
  unfold read_file in Hc. cbn [fs emit].
  destruct (stat (fs w) path) as [[c'|]|]; try discriminate.
  rewrite validate_file_unsupported by assumption.
  unfold close, tell. now rewrite !emit_emits, emits_emits.
Qed.

Lemma check_hash_supported (path hash_value hash_type : string) (c : bytes)
  (w : World) :
  read_file w path = Some c ->
  String.eqb hash_type "sha256" || String.eqb hash_type "md5" = true ->
  exists k,
    _check_hash L path hash_value hash_type w =
    (emits (EvOpen path "rb" :: repeat (EvRead path (1024 ^ 2)) (S k)
              ++ [EvClose path]) w,
     if String.eqb (hexdigest L hash_type c) hash_value then Ok tt
     else Raise (RuntimeError (hash_mismatch_message L path))).
Proof.
  intros Hc Hty. unfold _check_hash, bind at 1, open_rb, finally.
  unfold read_file in Hc. cbn [fs emit].
  destruct (stat (fs w) path) as [[c'|]|]; try discriminate.
  injection Hc as ->. unfold bind.
  destruct (validate_file_supported path c hash_value hash_type
              (emit (EvOpen path "rb") w) Hty) as [k Hk].
  exists k. rewrite Hk.
  destruct (String.eqb (hexdigest L hash_type c) hash_value); cbn [negb];
    unfold raise, ret, close, tell;
    rewrite !emit_emits, !emits_emits; reflexivity.
Qed.

End Hashing.

(** ** The lock directory *)

Lemma str_app_assoc (a b c : string) : (a ++ b) ++ c = a ++ b ++ c.
Proof.
  induction a as [|x a IH]; [reflexivity|].
  change (String x ((a ++ b) ++ c) = String x (a ++ b ++ c)).
  now rewrite IH.
Qed.

Lemma join_locks (a : string) : exists q, Path.join a "locks" = q ++ "locks".
Proof.
  unfold Path.join. change (Str.startswith "locks" "/") with false. cbv iota.
  destruct (String.eqb a "" || Str.endswith a "/").
  - now exists a.
  - exists (a ++ "/"). symmetry. apply str_app_assoc.
Qed.

Lemma locks_truthy (q : string) : Str.truthy (q ++ "locks") = true.
Proof. now destruct q. Qed.

Lemma locks_no_slash (q : string) : Str.endswith (q ++ "locks") "/" = false.
Proof.
  apply not_true_is_false. intros H. apply endswith_app in H as [p Hp].
  revert p Hp. induction q as [|a q IH]; intros p Hp.
  - do 6 (destruct p as [|? p]; simpl in Hp; try discriminate).
  - destruct p as [|b p]; simpl in Hp.
    + destruct q; discriminate.
    + injection Hp as _ Hp. now apply (IH p).
Qed.

(** Storing a new entry leaves the entries that exist as they are. *)
Lemma stat_insert_vacant (m : gmap string node) (k : string) (v : node) (p : string) :
  m !! k = None -> stat m p <> None -> stat (<[k := v]> m) p = stat m p.
Proof.
  intros Hk Hp. unfold stat in *. destruct (Str.truthy p); [|easy].
  destruct (decide (k = node_key p)) as [->|Hne].
  - now rewrite Hk in Hp.
  - now rewrite lookup_insert_ne.
Qed.

Section Download.

Context (L : Libs).

(** [get_lock_dir] always returns the lock directory; it creates it when
    nothing is stored under its name, and changes no existing entry. *)
Lemma get_lock_dir_spec (w : World) :
  exists m mk,
    get_lock_dir L w =
    ({| fs := m; trace := trace w ++ mk; busy := busy w |}, Ok (lock_dir L))
    /\ (mk = [] \/ mk = [EvMakedirs (lock_dir L)])
    /\ forall p, stat (fs w) p <> None -> stat m p = stat (fs w) p.
Proof.
  unfold get_lock_dir, bind, os_path_exists. fold (lock_dir L).
  destruct (join_locks (_CACHE_DIR L)) as [q Hq]. fold (lock_dir L) in Hq.
  destruct (path_exists w (lock_dir L)) eqn:Hex; cbn [negb].
  - exists (fs w), []. unfold ret. rewrite app_nil_r. destruct w; auto.
  - unfold makedirs. cbn [fs emit].
    unfold path_exists, stat in Hex.
    rewrite Hq, locks_truthy, locks_no_slash in Hex. rewrite Hq, locks_truthy.
    destruct (fs w !! node_key (q ++ "locks")) as [[c|]|] eqn:Hk; try discriminate.
    exists (<[node_key (q ++ "locks") := Dir]> (fs w)), [EvMakedirs (q ++ "locks")].
    rewrite <- Hq. split; [reflexivity|]. split; [now right|].
    intros p Hp. rewrite Hq. now apply stat_insert_vacant.
Qed.

(** When the destination exists and [overwrite] is false, the call is the
    optional hash check under the lock, followed by [return path]. *)
Lemma download_cached_spec (url : string) (path : option string) (root : string)
  (hash_value : option string) (hash_type : string) (w : World) :
  let dest := destination_path L url path root in
  let lock := lock_path L (destination_filename L url path root) in
  path_exists w dest = true ->
  lock ∉ busy w ->
  exists m mk,
    (mk = [] \/ mk = [EvMakedirs (lock_dir L)]) /\
    (forall p, stat (fs w) p <> None -> stat m p = stat (fs w) p) /\
    download_from_url L url path root false hash_value hash_type w =
    finally (check_if_supplied L dest hash_value hash_type ;;; ret dest)
      (release lock)
      {| fs := m; trace := trace w ++ mk ++ [EvAcquire lock]; busy := busy w |}.
Proof.
  unfold destination_path, destination_filename, lock_path, download_from_url.
  destruct (destination L url path root) as [[dest rt] fn]. cbn [fst snd].
  intros Hex Hfree.
  destruct (get_lock_dir_spec w) as (m & mk & Hg & Hmk & Hst).
  exists m, mk. split; [exact Hmk|]. split; [exact Hst|].
  unfold bind at 1. rewrite Hg. fold (lock_dir L).
  unfold with_FileLock, bind at 1, acquire. cbn [busy].
  destruct (decide (Path.join (lock_dir L) (fn ++ ".lock") ∈ busy w));
    [contradiction|].
  unfold emit. cbn [fs trace busy]. rewrite <- app_assoc.
  unfold finally. unfold bind at 1, os_path_exists.
  assert (Hex' : path_exists
            {| fs := m;
               trace := trace w ++ mk ++ [EvAcquire (Path.join (lock_dir L) (fn ++ ".lock"))];
               busy := busy w |} dest = true).
  { unfold path_exists in *. cbn [fs]. rewrite Hst; [exact Hex|].
    intros E. now rewrite E in Hex. }
  rewrite Hex'. reflexivity.
Qed.

Lemma transfers_app (a b : list event) :
  transfers (a ++ b) = (transfers a ++ transfers b)%list.
Proof.
  induction a as [|e a IH]; [reflexivity|].
  destruct e; simpl; now rewrite IH.
Qed.

Lemma transfers_reads (p : string) (size : N) (k : nat) :
  transfers (repeat (EvRead p size) k) = [].
Proof. induction k; simpl; auto. Qed.

(** When the lock directory exists, [get_lock_dir] finds it and does
    nothing. *)
Lemma get_lock_dir_found (w : World) :
  path_exists w (lock_dir L) = true -> get_lock_dir L w = (w, Ok (lock_dir L)).
Proof.
  intros Hld. unfold get_lock_dir, bind, os_path_exists. fold (lock_dir L).
  now rewrite Hld.
Qed.

(** C2 (download_from_url, lines 213-220).  When the destination already
    exists and [overwrite] is false, the call transfers nothing and leaves
    the file system as it is.  Without a hash value ([None], or the empty
    string, which [if hash_value:] takes for none) it returns the
    destination at once, doing nothing but taking and releasing the lock.
    With a hash value it opens the existing file, validates it, and
    returns the destination when the digest of the file is the hash
    value, and raises the integrity error when it is not.  The lock
    directory is there, and the lock is free. *)
Theorem download_existing_is_not_transferred (url : string) (path : option string)
  (root : string) (hash_value : option string) (hash_type : string) (w : World) :
  path_exists w (lock_dir L) = true ->
  path_exists w (destination_path L url path root) = true ->
  lock_path L (destination_filename L url path root) ∉ busy w ->
  exists w' checks,
    download_from_url L url path root false hash_value hash_type w =
    (w',
     match hash_value with
     | None => Ok (destination_path L url path root)
     | Some h =>
         if String.eqb h "" then Ok (destination_path L url path root)
         else
           match stat (fs w) (destination_path L url path root) with
           | Some (File c) =>
               if String.eqb hash_type "sha256" || String.eqb hash_type "md5" then
                 if String.eqb (hexdigest L hash_type c) h
                 then Ok (destination_path L url path root)
                 else Raise (RuntimeError
                        ("The hash of "
                         ++ abspath L (destination_path L url path root)
                         ++ " does not match. Delete the file manually and retry."))
               else Raise ValueError
           | _ => Raise (IsADirectoryError (destination_path L url path root))
           end
     end)
    /\ trace w' =
       (trace w
        ++ EvAcquire (lock_path L (destination_filename L url path root))
        :: checks
        ++ [EvRelease (lock_path L (destination_filename L url path root))])%list
    /\ match hash_value with
       | None => checks = []
       | Some h =>
           if String.eqb h "" then checks = []
           else exists reads,
               checks = EvOpen (destination_path L url path root) "rb" :: reads
       end
    /\ transfers (trace w') = transfers (trace w)
    /\ fs w' = fs w.
Proof.
  intros Hld Hex Hfree.
  assert (Hrun :
    download_from_url L url path root false hash_value hash_type w =
    finally
      (check_if_supplied L (destination_path L url path root) hash_value hash_type ;;;
       ret (destination_path L url path root))
      (release (lock_path L (destination_filename L url path root)))
      (emits [EvAcquire (lock_path L (destination_filename L url path root))] w)).
  { revert Hex Hfree.
    unfold destination_path, destination_filename, lock_path, download_from_url.
    destruct (destination L url path root) as [[dest rt] fn]. cbn [fst snd].
    intros Hex Hfree.
    rewrite (bind_ok _ _ _ _ _ (get_lock_dir_found w Hld)).
    unfold with_FileLock, bind at 1, acquire.
    destruct (decide (Path.join (lock_dir L) (fn ++ ".lock") ∈ busy w));
      [contradiction|].
    rewrite emit_emits. unfold finally, bind at 1, os_path_exists.
    change (path_exists (emits _ w) dest) with (path_exists w dest).
    now rewrite Hex. }
  rewrite Hrun. clear Hrun.
  set (dest := destination_path L url path root) in *.
  set (lock := lock_path L (destination_filename L url path root)) in *.
  set (w1 := emits [EvAcquire lock] w).
  assert (Hfin : forall (checks : list event) (r : result string),
    transfers checks = [] ->
    trace (emits (checks ++ [EvRelease lock]) w1)
    = (trace w ++ EvAcquire lock :: checks ++ [EvRelease lock])%list
    /\ transfers (trace (emits (checks ++ [EvRelease lock]) w1))
       = transfers (trace w)).
  { intros checks r Htr. cbn [emits trace w1]. rewrite <- !app_assoc.
    split; [reflexivity|].
    rewrite !transfers_app, Htr. cbn [transfers]. now rewrite !app_nil_r. }
  unfold finally, bind, check_if_supplied, supplied, Str.truthy.
  destruct hash_value as [h|].
  - destruct (String.eqb h "") eqn:Hh; cbn [negb].
    + unfold ret, release, tell. rewrite emit_emits.
      exists (emits ([] ++ [EvRelease lock]) w1), [].
      destruct (Hfin [] (Ok dest) eq_refl) as [Ht Hn]. auto.
    + destruct (stat (fs w) dest) as [[c|]|] eqn:Hd.
      * assert (Hrd : read_file w1 dest = Some c)
          by (unfold read_file; cbn [fs w1 emits]; now rewrite Hd).
        destruct (String.eqb hash_type "sha256" || String.eqb hash_type "md5")
          eqn:Hty.
        -- destruct (check_hash_supported L dest h hash_type c w1 Hrd Hty)
             as [k Hk].
           rewrite Hk. fold dest.
           set (checks := (EvOpen dest "rb"
                           :: repeat (EvRead dest (1024 ^ 2)) (S k)
                           ++ [EvClose dest])%list).
           assert (Htr : transfers checks = []).
           { unfold checks. cbn [transfers].
             now rewrite transfers_app, transfers_reads. }
           destruct (Hfin checks (Ok dest) Htr) as [Ht Hn].
           exists (emits (checks ++ [EvRelease lock]) w1), checks.
           split.
           { destruct (String.eqb (hexdigest L hash_type c) h);
               unfold ret, release, tell; now rewrite emit_emits, emits_emits. }
           split; [exact Ht|]. split; [now eexists|]. split; [exact Hn|].
           reflexivity.
        -- rewrite (check_hash_unsupported L dest h hash_type c w1 Hrd Hty).
           unfold release, tell. rewrite emit_emits, emits_emits.
           destruct (Hfin [EvOpen dest "rb"; EvClose dest] (Ok dest) eq_refl)
             as [Ht Hn].
           eexists _, _. split; [reflexivity|]. split; [exact Ht|].
           split; [now eexists|]. split; [exact Hn | reflexivity].
      * unfold _check_hash, bind, open_rb. cbn [fs emit w1 emits]. rewrite Hd.
        unfold release, tell. rewrite !emit_emits, !emits_emits.
        destruct (Hfin [EvOpen dest "rb"] (Ok dest) eq_refl) as [Ht Hn].
        exists (emits ([EvOpen dest "rb"] ++ [EvRelease lock]) w1),
          [EvOpen dest "rb"].
        split; [reflexivity|]. split; [exact Ht|].
        split; [now exists []|]. split; [exact Hn | reflexivity].
      * unfold path_exists in Hex. now rewrite Hd in Hex.
  - unfold ret, release, tell. rewrite emit_emits.
    exists (emits ([] ++ [EvRelease lock]) w1), [].
    destruct (Hfin [] (Ok dest) eq_refl) as [Ht Hn]. auto.
Qed.

(** When the lock directory and the download directory exist and the
    destination does not (or [overwrite] is set), the call is one transfer
    followed by the optional hash check, under the lock. *)
Lemma download_fresh_spec (url : string) (path : option string) (root : string)
  (overwrite : bool) (hash_value : option string) (hash_type : string) (w : World) :
  path_exists w (lock_dir L) = true ->
  lock_path L (destination_filename L url path root) ∉ busy w ->
  path_exists w (destination_root L url path root) = true ->
  path_exists w (destination_path L url path root) = false \/ overwrite = true ->
  download_from_url L url path root overwrite hash_value hash_type w =
  finally
    (tell (EvTransfer url (destination_path L url path root)) ;;;
     get_local_path L url (destination_path L url path root) ;;;
     check_if_supplied L (destination_path L url path root) hash_value hash_type ;;;
     ret (destination_path L url path root))
    (release (lock_path L (destination_filename L url path root)))
    (emits [EvAcquire (lock_path L (destination_filename L url path root))] w).
Proof.
  unfold destination_path, destination_root, destination_filename, lock_path,
    download_from_url.
  destruct (destination L url path root) as [[dest rt] fn]. cbn [fst snd].
  intros Hld Hfree Hrt Hfresh.
  unfold bind at 1, get_lock_dir, bind at 1. unfold os_path_exists at 1.
  fold (lock_dir L). rewrite Hld. cbn [negb]. unfold ret at 1, bind at 1, ret at 1.
  unfold with_FileLock, bind at 1, acquire.
  destruct (decide (Path.join (lock_dir L) (fn ++ ".lock") ∈ busy w));
    [contradiction|].
  rewrite emit_emits. unfold finally.
  set (w1 := emits _ w).
  assert (Hrt1 : path_exists w1 rt = true) by exact Hrt.
  assert (Hbody :
    (root_exists <- os_path_exists rt ;;
     (if negb root_exists
      then except_OSError (makedirs rt false)
             (OSError ("Can't create the download directory " ++ rt ++ "."))
      else ret tt) ;;;
     tell (EvTransfer url dest) ;;;
     get_local_path L url dest ;;;
     check_if_supplied L dest hash_value hash_type ;;; ret dest) w1 =
    (tell (EvTransfer url dest) ;;;
     get_local_path L url dest ;;;
     check_if_supplied L dest hash_value hash_type ;;; ret dest) w1).
  { unfold bind at 1, os_path_exists. rewrite Hrt1. cbn [negb].
    unfold bind at 1, ret at 1. reflexivity. }
  unfold bind at 1. unfold os_path_exists at 1.
  destruct (path_exists w1 dest) eqn:Hex.
  - destruct Hfresh as [Hno | ->]; [unfold w1, path_exists in Hex; cbn [fs emits] in Hex;
      unfold path_exists in Hno; congruence|].
    cbn [negb]. now rewrite Hbody.
  - now rewrite Hbody.
Qed.

(** A hash mismatch on a freshly transferred file: the error is raised
    after the one transfer, and the file the backend wrote stays. *)
Lemma download_fresh_mismatch (url : string) (path : option string) (root : string)
  (overwrite : bool) (h hash_type : string) (w w3 : World) (c : bytes) :
  path_exists w (lock_dir L) = true ->
  lock_path L (destination_filename L url path root) ∉ busy w ->
  path_exists w (destination_root L url path root) = true ->
  path_exists w (destination_path L url path root) = false \/ overwrite = true ->
  get_local_path L url (destination_path L url path root)
    (emits [EvAcquire (lock_path L (destination_filename L url path root));
            EvTransfer url (destination_path L url path root)] w) = (w3, Ok tt) ->
  read_file w3 (destination_path L url path root) = Some c ->
  Str.truthy h = true ->
  supported hash_type = true ->
  hexdigest L hash_type c <> h ->
  exists k,
    download_from_url L url path root overwrite (Some h) hash_type w =
    (emits (EvOpen (destination_path L url path root) "rb"
            :: repeat (EvRead (destination_path L url path root) (1024 ^ 2)) (S k)
            ++ [EvClose (destination_path L url path root);
                EvRelease (lock_path L (destination_filename L url path root))]) w3,
     Raise (RuntimeError
              (hash_mismatch_message L (destination_path L url path root)))).
Proof.
  intros Hld Hfree Hrt Hfresh Hget Hrd Hh Hty Hne.
  rewrite (download_fresh_spec url path root overwrite (Some h) hash_type w
             Hld Hfree Hrt Hfresh).
  unfold finally, bind at 1, tell at 1. rewrite emit_emits, emits_emits.
  cbn [app]. unfold bind at 1. rewrite Hget.
  unfold bind at 1, check_if_supplied, supplied. rewrite Hh.
  destruct (check_hash_supported L _ h hash_type c w3 Hrd Hty) as [k Hk].
  exists k. rewrite Hk.
  apply String.eqb_neq in Hne. rewrite Hne.
  unfold release, tell. rewrite emit_emits, emits_emits.
  cbn [app]. rewrite <- app_assoc. reflexivity.
Qed.

Lemma supported_false (hash_type : string) :
  hash_type <> "sha256" -> hash_type <> "md5" -> supported hash_type = false.
Proof.
  intros H1 H2. unfold supported.
  apply String.eqb_neq in H1, H2. now rewrite H1, H2.
Qed.

(** C3, as amended (validate_file, lines 146-167; _check_hash, lines
    170-178).  For a hash type other than "sha256" and "md5",
    [validate_file] raises [ValueError] before it reads a byte: the world,
    trace included, is as before.  It opens no file itself; reached
    through [_check_hash], the file has been opened by then, and is closed
    again without having been read. *)
Theorem unsupported_hash_type_is_rejected_unread (file_obj : reader)
  (path hash_value hash_type : string) (c : bytes) (w : World) :
  hash_type <> "sha256" ->
  hash_type <> "md5" ->
  read_file w path = Some c ->
  validate_file L file_obj hash_value hash_type w = (w, Raise ValueError)
  /\ _check_hash L path hash_value hash_type w =
     (emits [EvOpen path "rb"; EvClose path] w, Raise ValueError).
Proof.
  intros H1 H2 Hc. pose proof (supported_false hash_type H1 H2) as Hty.
  split.
  - now apply validate_file_unsupported.
  - now apply check_hash_unsupported with (c := c).
Qed.

(** C6 (_check_hash, lines 170-178).  When the digest of the file differs
    from the expected value, the check raises the error whose message holds
    the absolute path of the file and the instruction to delete it by hand;
    the file system is as before, so the file is still there with its
    content; the check has opened, read and closed the file and done
    nothing else: no transfer, no second attempt. *)
Theorem hash_mismatch_raises_and_keeps_file (path hash_value hash_type : string)
  (c : bytes) (w : World) :
  read_file w path = Some c ->
  supported hash_type = true ->
  hexdigest L hash_type c <> hash_value ->
  exists w' k,
    _check_hash L path hash_value hash_type w =
    (w', Raise (RuntimeError
                  ("The hash of " ++ abspath L path
                   ++ " does not match. Delete the file manually and retry.")))
    /\ fs w' = fs w
    /\ read_file w' path = Some c
    /\ trace w' =
       (trace w ++ EvOpen path "rb"
        :: repeat (EvRead path (1024 ^ 2)) (S k) ++ [EvClose path])%list
    /\ transfers (trace w') = transfers (trace w).
Proof.
  intros Hc Hty Hne.
  destruct (check_hash_supported L path hash_value hash_type c w Hc Hty) as [k Hk].
  apply String.eqb_neq in Hne. rewrite Hne in Hk.
  eexists _, k. split; [exact Hk|].
  split; [reflexivity|]. split; [exact Hc|]. split; [reflexivity|].
  cbn [emits trace]. rewrite transfers_app. cbn [transfers].
  now rewrite transfers_app, transfers_reads, app_nil_r.
Qed.

(** The same on the cached path of [download_from_url]: the call raises
    the integrity error, transfers nothing, and the cached file stays. *)
Lemma download_cached_mismatch (url : string) (path : option string) (root : string)
  (h hash_type : string) (c : bytes) (w : World) :
  read_file w (destination_path L url path root) = Some c ->
  lock_path L (destination_filename L url path root) ∉ busy w ->
  Str.truthy h = true ->
  supported hash_type = true ->
  hexdigest L hash_type c <> h ->
  exists w',
    download_from_url L url path root false (Some h) hash_type w =
    (w', Raise (RuntimeError
                  (hash_mismatch_message L (destination_path L url path root))))
    /\ transfers (trace w') = transfers (trace w)
    /\ read_file w' (destination_path L url path root) = Some c.
Proof.
  intros Hc Hfree Hh Hty Hne.
  assert (Hst : stat (fs w) (destination_path L url path root) = Some (File c)).
  { unfold read_file in Hc.
    destruct (stat (fs w) (destination_path L url path root)) as [[c'|]|];
      congruence. }
  assert (Hex : path_exists w (destination_path L url path root) = true)
    by (unfold path_exists; now rewrite Hst).
  destruct (download_cached_spec url path root (Some h) hash_type w Hex Hfree)
    as (m & mk & Hmk & Hkeep & ->).
  set (dest := destination_path L url path root) in *.
  set (lock := lock_path L (destination_filename L url path root)) in *.
  set (w1 := {| fs := m; trace := trace w ++ mk ++ [EvAcquire lock]; busy := busy w |}).
  assert (Hst1 : stat (fs w1) dest = Some (File c)).
  { cbn [fs w1]. rewrite Hkeep; [exact Hst | now rewrite Hst]. }
  assert (Hrd : read_file w1 dest = Some c) by (unfold read_file; now rewrite Hst1).
  destruct (check_hash_supported L dest h hash_type c w1 Hrd Hty) as [k Hk].
  apply String.eqb_neq in Hne. rewrite Hne in Hk.
  unfold finally, bind, check_if_supplied, supplied. rewrite Hh, Hk.
  unfold release, tell. rewrite emit_emits, emits_emits.
  eexists. split; [reflexivity|]. split.
  - cbn [emits trace w1]. rewrite !transfers_app. cbn [transfers].
    rewrite transfers_app, transfers_reads. cbn [transfers].
    destruct Hmk as [-> | ->]; cbn [transfers]; now rewrite !app_nil_r.
  - exact Hrd.
Qed.

End Download.

(** ** [extract_archive] *)

Section Extraction.

Context (L : Libs).

(** C7 (extract_archive, lines 314-317).  A path with none of the
    suffixes .tar.gz, .tgz, .zip, .gz is rejected with the error that
    lists the supported suffixes, and the world is as before: no file is
    created, and the trace shows that nothing was opened or read. *)
Theorem unsupported_suffix_is_rejected_untouched (from_path : string)
  (to_path : option string) (overwrite : bool) (w : World) :
  Str.endswith from_path ".tar.gz" = false ->
  Str.endswith from_path ".tgz" = false ->
  Str.endswith from_path ".zip" = false ->
  Str.endswith from_path ".gz" = false ->
  extract_archive L from_path to_path overwrite w =
  (w, Raise (NotImplementedError
               "We currently only support tar.gz, .tgz, .gz and zip achives."))
  /\ Str.contains "tar.gz" unsupported_message = true
  /\ Str.contains ".tgz" unsupported_message = true
  /\ Str.contains ".gz" unsupported_message = true
  /\ Str.contains "zip" unsupported_message = true.
Proof.
  intros Htar Htgz Hzip Hgz. unfold extract_archive.
  rewrite Htar, Htgz, Hzip, Hgz. repeat split; reflexivity.
Qed.

(** *** The gzip branch *)

Lemma gz_loop_eq (fuel : nat) (gzfile : gz_reader) (d_file : string) :
  gz_loop fuel gzfile d_file =
  (got <- gz_read default_block_size gzfile ;;
   let '(block, gzfile) := got in
   match block with
   | [] => ret block
   | _ =>
       write d_file block ;;;
       match fuel with
       | O => raise OutOfFuel
       | S fuel => gz_loop fuel gzfile d_file
       end
   end).
Proof. destruct fuel; reflexivity. Qed.

(** The loop appends every decompressed byte to the output, in order, and
    is left with the empty block; the last thing it does is the read that
    returned it. *)
Lemma gz_loop_spec (n d : string) (err : exn) (fuel : nat) :
  forall (rest c0 : bytes) (w : World),
    length rest <= fuel ->
    fs w !! node_key d = Some (File c0) ->
    exists tr,
      gz_loop fuel (mkGz n rest true err) d w =
      ({| fs := <[node_key d := File (c0 ++ rest)]> (fs w);
          trace := trace w ++ tr ++ [EvRead n default_block_size];
          busy := busy w |}, Ok []).
Proof.
  induction fuel as [|fuel IH]; intros rest c0 w Hlen Hd;
    rewrite gz_loop_eq; unfold bind at 1, gz_read;
    cbn [g_rest g_name g_clean g_error].
  - destruct rest; [|simpl in Hlen; lia].
    exists []. unfold ret, emit. rewrite app_nil_r, insert_id by exact Hd.
    reflexivity.
  - destruct rest as [|x t].
    + exists []. unfold ret, emit. rewrite app_nil_r, insert_id by exact Hd.
      reflexivity.
    + cbn [orb].
      destruct (split_at_cons default_block_size x t) as (a & b & -> & ->); [easy|].
      unfold bind at 1, write. cbn [fs emit]. rewrite Hd.
      destruct (IH b (c0 ++ x :: a)%list
                  (set_fs (<[node_key d := File (c0 ++ x :: a)]> (fs w))
                     (emit (EvWrite d (x :: a)) (emit (EvRead n default_block_size) w))))
        as [tr Htr].
      { simpl in Hlen. rewrite length_app in Hlen. lia. }
      { cbn [fs set_fs]. apply lookup_insert_eq. }
      exists (EvRead n default_block_size :: EvWrite d (x :: a) :: tr).
      rewrite Htr. cbn [fs set_fs emit trace busy].
      rewrite insert_insert_eq, <- !app_assoc. reflexivity.
Qed.

(** Whatever the stream and the output are, the bound on the iterations
    is not what ends the loop. *)
Lemma gz_loop_fuel (n d : string) (err : exn) (fuel : nat) :
  forall (rest : bytes) (clean : bool) (w : World),
    err <> OutOfFuel ->
    length rest <= fuel ->
    snd (gz_loop fuel (mkGz n rest clean err) d w) <> Raise OutOfFuel.
Proof.
  induction fuel as [|fuel IH]; intros rest clean w Herr Hlen;
    rewrite gz_loop_eq; unfold bind at 1, gz_read;
    cbn [g_rest g_name g_clean g_error].
  - destruct rest; [|simpl in Hlen; lia].
    destruct clean; cbn; congruence.
  - destruct rest as [|x t]; [destruct clean; cbn; congruence|].
    destruct (clean || (default_block_size <=? N.of_nat (length (x :: t)))%N);
      [|cbn; congruence].
    destruct (split_at_cons default_block_size x t) as (a & b & -> & ->); [easy|].
    unfold bind at 1, write. cbn [fs emit].
    destruct (fs w !! node_key d) as [[c0|]|]; try discriminate.
    apply IH; [exact Herr|]. simpl in Hlen. rewrite length_app in Hlen. lia.
Qed.

(** A path that ends with .gz and with neither .tar.gz nor .tgz reaches
    the gzip branch, where [to_path] is not used. *)
Lemma gz_branch (from_path : string) (to_path : option string) (overwrite : bool) :
  Str.endswith from_path ".gz" = true ->
  Str.endswith from_path ".tar.gz" = false ->
  Str.endswith from_path ".tgz" = false ->
  extract_archive L from_path to_path overwrite =
  (gzfile <- gzip_open L from_path ;;
   finally
     (d_file <- open_wb (Str.drop_last 3 from_path) ;;
      finally
        (block <- gz_loop (length (g_rest gzfile)) gzfile d_file ;;
         write d_file block)
        (close (Str.drop_last 3 from_path)))
     (close from_path) ;;;
   ret [Str.drop_last 3 from_path]).
Proof.
  intros Hgz Htar Htgz. unfold extract_archive.
  now rewrite Htar, Htgz, (gz_is_not_zip _ Hgz), Hgz.
Qed.

(** What the gzip branch does with a readable archive that decompresses
    cleanly, when the output can be written. *)
Lemma gz_extract_spec (from_path : string) (to_path : option string)
  (overwrite : bool) (w : World) (c data : bytes) :
  Str.endswith from_path ".gz" = true ->
  Str.endswith from_path ".tar.gz" = false ->
  Str.endswith from_path ".tgz" = false ->
  read_file w from_path = Some c ->
  gunzip L c = (data, true) ->
  writable w (Str.drop_last 3 from_path) = true ->
  exists tr,
    extract_archive L from_path to_path overwrite w =
    ({| fs := <[node_key (Str.drop_last 3 from_path) := File data]> (fs w);
        trace := trace w
                 ++ EvOpen from_path "rb" :: EvOpen (Str.drop_last 3 from_path) "wb"
                 :: tr
                 ++ [EvRead from_path default_block_size;
                     EvWrite (Str.drop_last 3 from_path) [];
                     EvClose (Str.drop_last 3 from_path);
                     EvClose from_path];
        busy := busy w |},
     Ok [Str.drop_last 3 from_path]).
Proof.
  intros Hgz Htar Htgz Hc Hz Hw. rewrite gz_branch by assumption.
  set (filename := Str.drop_last 3 from_path) in *.
  set (w0 := emit (EvOpen from_path "rb") w).
  set (w1 := set_fs (<[node_key filename := File []]> (fs w))
               (emit (EvOpen filename "wb") w0)).
  destruct (gz_loop_spec from_path filename (gzip_error L c) (length data) data
              [] w1)
    as [tr Hloop]; [lia | apply lookup_insert_eq |].
  exists tr.
  assert (Hopen : gzip_open L from_path w
                  = (w0, Ok (mkGz from_path data true (gzip_error L c)))).
  { unfold gzip_open. rewrite (bind_ok _ _ _ _ _ (open_rb_file _ _ _ Hc)).
    cbn [r_rest]. now rewrite Hz. }
  rewrite (bind_ok _ _ _ _ _ Hopen). cbn [g_rest].
  match type of Hloop with _ = (?x, _) => set (w2 := x) in * end.
  assert (Hwrite :
    (block <- gz_loop (length data) (mkGz from_path data true (gzip_error L c))
                filename ;;
     write filename block) w1 =
    (set_fs (<[node_key filename := File (([] ++ data) ++ [])]> (fs w2))
       (emit (EvWrite filename []) w2), Ok tt)).
  { rewrite (bind_ok _ _ _ _ _ Hloop). apply write_file.
    unfold w2. cbn [fs]. apply lookup_insert_eq. }
  assert (Hbody :
    (d_file <- open_wb filename ;;
     finally
       (block <- gz_loop (length data) (mkGz from_path data true (gzip_error L c))
                   d_file ;;
        write d_file block)
       (close filename)) w0 =
    (emit (EvClose filename)
       (set_fs (<[node_key filename := File (([] ++ data) ++ [])]> (fs w2))
          (emit (EvWrite filename []) w2)), Ok tt)).
  { rewrite (bind_ok _ _ _ _ _ (open_wb_writable filename w0 Hw)).
    apply finally_close. exact Hwrite. }
  rewrite (bind_ok _ _ _ _ _ (finally_close _ from_path _ _ _ Hbody)).
  unfold ret, emit, set_fs, w2, w1, w0, emit, set_fs. cbn [fs trace busy].
  rewrite !insert_insert_eq, app_nil_r, <- !app_assoc. reflexivity.
Qed.

Lemma str_length_app (a b : string) :
  String.length (a ++ b) = String.length a + String.length b.
Proof.
  induction a as [|x a IH]; [reflexivity|].
  change (S (String.length (a ++ b)) = S (String.length a + String.length b)).
  now rewrite IH.
Qed.

(** Stripping the last three characters undoes appending ".gz". *)
Lemma drop_last_gz (p : string) : Str.drop_last 3 (p ++ ".gz") = p.
Proof.
  unfold Str.drop_last. induction p as [|a p IH]; [reflexivity|].
  change (String a p ++ ".gz") with (String a (p ++ ".gz")).
  cbn [String.length]. pose proof (str_length_app p ".gz") as Hl.
  cbn [String.length] in Hl.
  replace (S (String.length (p ++ ".gz")) - 3)
    with (S (String.length (p ++ ".gz") - 3)) by lia.
  cbn [substring]. now rewrite IH.
Qed.

Lemma stat_insert_eq (m : gmap string node) (p : string) (c : bytes) :
  Str.truthy p = true -> Str.endswith p "/" = false ->
  stat (<[node_key p := File c]> m) p = Some (File c).
Proof.
  intros Ht Hs. unfold stat. now rewrite Ht, lookup_insert_eq, Hs.
Qed.

Lemma writable_inv (w : World) (p : string) :
  writable w p = true -> Str.truthy p = true /\ Str.endswith p "/" = false.
Proof.
  unfold writable. intros H. apply andb_prop in H as [H _].
  apply andb_prop in H as [-> H]. now apply negb_true_iff in H.
Qed.

(** C1, as amended (extract_archive, lines 298-312).  The write after the
    loop writes the block the loop was left with, and that block is always
    the empty one: for a gzip input that decompresses cleanly, the output
    file holds exactly the decompressed content, nothing is written twice,
    and the last write recorded in the trace is the write of no bytes. *)
Theorem gzip_output_is_the_decompressed_content (from_path : string)
  (to_path : option string) (overwrite : bool) (w : World) (c data : bytes) :
  Str.endswith from_path ".gz" = true ->
  Str.endswith from_path ".tar.gz" = false ->
  Str.endswith from_path ".tgz" = false ->
  read_file w from_path = Some c ->
  gunzip L c = (data, true) ->
  writable w (Str.drop_last 3 from_path) = true ->
  exists w' tr,
    extract_archive L from_path to_path overwrite w =
    (w', Ok [Str.drop_last 3 from_path])
    /\ read_file w' (Str.drop_last 3 from_path) = Some data
    /\ trace w' =
       (trace w
        ++ EvOpen from_path "rb" :: EvOpen (Str.drop_last 3 from_path) "wb"
        :: tr
        ++ [EvRead from_path default_block_size;
            EvWrite (Str.drop_last 3 from_path) [];
            EvClose (Str.drop_last 3 from_path);
            EvClose from_path])%list.
Proof.
  intros Hgz Htar Htgz Hc Hz Hw.
  destruct (gz_extract_spec from_path to_path overwrite w c data
              Hgz Htar Htgz Hc Hz Hw) as [tr Htr].
  eexists _, tr. split; [exact Htr|]. split; [|reflexivity].
  apply writable_inv in Hw as [Ht Hs].
  unfold read_file. cbn [fs]. now rewrite stat_insert_eq.
Qed.

(** C9 (extract_archive, lines 298-312).  In the gzip branch [to_path] is
    not used: whatever it is, the call does the same; the output is
    written next to the archive, under [from_path] without its last three
    characters, and the listing returned is that one path. *)
Theorem gzip_ignores_to_path (from_path : string) (to_path : option string)
  (overwrite : bool) (w : World) (c data : bytes) :
  Str.endswith from_path ".gz" = true ->
  Str.endswith from_path ".tar.gz" = false ->
  Str.endswith from_path ".tgz" = false ->
  read_file w from_path = Some c ->
  gunzip L c = (data, true) ->
  writable w (Str.drop_last 3 from_path) = true ->
  (forall to_path' : option string,
     extract_archive L from_path to_path' overwrite w =
     extract_archive L from_path to_path overwrite w)
  /\ (Str.drop_last 3 from_path ++ ".gz")%string = from_path
  /\ exists w',
       extract_archive L from_path to_path overwrite w =
       (w', Ok [Str.drop_last 3 from_path])
       /\ read_file w' (Str.drop_last 3 from_path) = Some data.
Proof.
  intros Hgz Htar Htgz Hc Hz Hw. split; [|split].
  - intros to_path'. now rewrite !gz_branch.
  - apply endswith_app in Hgz as [p ->]. now rewrite drop_last_gz.
  - destruct (gz_extract_spec from_path to_path overwrite w c data
                Hgz Htar Htgz Hc Hz Hw) as [tr Htr].
    eexists. split; [exact Htr|].
    apply writable_inv in Hw as [Ht Hs].
    unfold read_file. cbn [fs]. now rewrite stat_insert_eq.
Qed.

(** *** The tar branch *)




Lemma tarfile_open_spec (from_path : string) (c : bytes) (tar : list TarInfo)
  (w : World) :
  read_file w from_path = Some c ->
  tar_members L c = Some tar ->
  tarfile_open L from_path w = (emit (EvOpen from_path "rb") w, Ok tar).
Proof.
  intros Hc Htar. unfold tarfile_open.
  rewrite (bind_ok _ _ _ _ _ (open_rb_file _ _ _ Hc)). cbn [r_rest].
  now rewrite Htar.
Qed.

Lemma tar_branch (from_path : string) (to_path : option string) (overwrite : bool) :
  Str.endswith from_path ".tar.gz" || Str.endswith from_path ".tgz" = true ->
  extract_archive L from_path to_path overwrite =
  (tar <- tarfile_open L from_path ;;
   finally (tar_loop L tar (target_dir from_path to_path) overwrite [])
     (close from_path)).
Proof. intros H. unfold extract_archive. now rewrite H. Qed.


(** *** The zip branch *)

Lemma zip_is_not_tar (s : string) :
  Str.endswith s ".zip" = true ->
  Str.endswith s ".tar.gz" || Str.endswith s ".tgz" = false.
Proof.
  intros Hzip. apply endswith_app in Hzip as [q ->].
  apply orb_false_intro; apply not_true_is_false; intros H;
    apply endswith_app in H as [p Hp]; revert p Hp;
    induction q as [|b q IH]; intros p Hp.
  - do 5 (destruct p as [|? p]; simpl in Hp; try discriminate).
  - destruct p as [|a p]; simpl in Hp.
    + do 8 (destruct q as [|? q]; simpl in Hp; try discriminate).
    + injection Hp as _ Hp. now apply (IH p).
  - do 5 (destruct p as [|? p]; simpl in Hp; try discriminate).
  - destruct p as [|a p]; simpl in Hp.
    + do 5 (destruct q as [|? q]; simpl in Hp; try discriminate).
    + injection Hp as _ Hp. now apply (IH p).
Qed.

Lemma zip_branch (from_path : string) (to_path : option string) (overwrite : bool) :
  Str.endswith from_path ".zip" = true ->
  extract_archive L from_path to_path overwrite =
  (valid <- is_zipfile L from_path ;;
   if negb valid then raise (AssertionError from_path)
   else
     opened <- ZipFile L from_path ;;
     let '(zfile, namelist) := opened in
     files <- finally
                (zip_loop L zfile namelist (target_dir from_path to_path) overwrite [])
                (close from_path) ;;
     keep_files files).
Proof.
  intros H. unfold extract_archive. now rewrite (zip_is_not_tar _ H), H.
Qed.

Lemma is_zipfile_spec (from_path : string) (c : bytes) (names : list string)
  (w : World) :
  read_file w from_path = Some c ->
  zip_namelist L c = Some names ->
  is_zipfile L from_path w =
  (emit (EvClose from_path) (emit (EvOpen from_path "rb") w), Ok true).
Proof. intros Hc Hn. unfold is_zipfile. now rewrite Hc, Hn. Qed.

Lemma ZipFile_spec (from_path : string) (c : bytes) (names : list string)
  (w : World) :
  read_file w from_path = Some c ->
  zip_namelist L c = Some names ->
  ZipFile L from_path w = (emit (EvOpen from_path "rb") w, Ok (c, names)).
Proof.
  intros Hc Hn. unfold ZipFile.
  rewrite (bind_ok _ _ _ _ _ (open_rb_file _ _ _ Hc)). cbn [r_rest].
  now rewrite Hn.
Qed.










End Extraction.

(** ** [get_asset_local_path] *)

Section Assets.

Context (L : Libs).

Lemma bind_inv {A B} (m : M A) (k : A -> M B) (w w' : World) (b : B) :
  bind m k w = (w', Ok b) ->
  exists w1 a, m w = (w1, Ok a) /\ k a w1 = (w', Ok b).
Proof.
  unfold bind. destruct (m w) as [w1 [a|e]]; [|discriminate].
  intros H. now exists w1, a.
Qed.

Lemma finally_inv {A} (m : M A) (cleanup : M unit) (w w' : World) (a : A) :
  finally m cleanup w = (w', Ok a) -> exists w1, m w = (w1, Ok a).
Proof.
  unfold finally. destruct (m w) as [w1 r].
  destruct (cleanup w1) as [w2 [[]|e]]; [|discriminate].
  intros [= _ ->]. now exists w1.
Qed.

(** A call of [download_from_url] that returns, returns the destination. *)
Lemma download_returns_destination (url : string) (path : option string)
  (root : string) (overwrite : bool) (hash_value : option string)
  (hash_type : string) (w w' : World) (p : string) :
  download_from_url L url path root overwrite hash_value hash_type w = (w', Ok p) ->
  p = destination_path L url path root.
Proof.
  unfold download_from_url, destination_path.
  destruct (destination L url path root) as [[dest rt] fn]. cbn [fst].
  intros H.
  apply bind_inv in H as (w1 & lock_dir & _ & H).
  unfold with_FileLock in H. apply bind_inv in H as (w2 & [] & _ & H).
  apply finally_inv in H as (w3 & H).
  apply bind_inv in H as (w4 & ex & _ & H).
  assert (Hdl : forall w5 w6,
    (root_exists <- os_path_exists rt ;;
     (if negb root_exists
      then except_OSError (makedirs rt false)
             (OSError ("Can't create the download directory " ++ rt ++ "."))
      else ret tt) ;;;
     tell (EvTransfer url dest) ;;;
     get_local_path L url dest ;;;
     check_if_supplied L dest hash_value hash_type ;;; ret dest) w5 = (w6, Ok p) ->
    p = dest).
  { intros w5 w6 Hd.
    apply bind_inv in Hd as (? & ? & _ & Hd).
    apply bind_inv in Hd as (? & ? & _ & Hd).
    apply bind_inv in Hd as (? & ? & _ & Hd).
    apply bind_inv in Hd as (? & ? & _ & Hd).
    apply bind_inv in Hd as (? & ? & _ & Hd).
    unfold ret in Hd. congruence. }
  destruct ex; [destruct overwrite; cbn [negb] in H|]; try (now apply Hdl in H).
  apply bind_inv in H as (? & ? & _ & H). unfold ret in H. congruence.
Qed.

(** C8 (get_asset_local_path, lines 327-347).  When [asset_path] names an
    existing entry, the call returns it and the world is as before: no
    download, no lock, nothing in the trace.  Otherwise the call is the
    call of [download_from_url] with the cache root as [root], no
    destination path and no hash value, whose destination is the file name
    of [asset_path] under the cache root; what the call returns is then
    that destination. *)
Theorem asset_path_is_local_or_downloaded (asset_path : string)
  (overwrite : bool) (w : World) :
  get_asset_local_path L asset_path overwrite w =
  (if path_exists w asset_path then (w, Ok asset_path)
   else download_from_url L asset_path None (_CACHE_DIR L) overwrite None
          "sha256" w)
  /\ destination_path L asset_path None (_CACHE_DIR L) =
     Path.join (abspath L (_CACHE_DIR L)) (snd (Path.split asset_path))
  /\ match snd (get_asset_local_path L asset_path overwrite w) with
     | Ok local_path =>
         local_path =
         if path_exists w asset_path then asset_path
         else destination_path L asset_path None (_CACHE_DIR L)
     | Raise _ => True
     end.
Proof.
  assert (Heq : get_asset_local_path L asset_path overwrite w =
    (if path_exists w asset_path then (w, Ok asset_path)
     else download_from_url L asset_path None (_CACHE_DIR L) overwrite None
            "sha256" w)).
  { unfold get_asset_local_path, bind, os_path_exists.
    now destruct (path_exists w asset_path). }
  split; [exact Heq|]. split; [reflexivity|].
  rewrite Heq. destruct (path_exists w asset_path); [reflexivity|].
  destruct (download_from_url L asset_path None (_CACHE_DIR L) overwrite None
              "sha256" w) as [w' [p|e]] eqn:Hd; [|exact I].
  now apply download_returns_destination in Hd.
Qed.

End Assets.

(** ** [start_inference_mode] and [reset_inference_mode] *)

Lemma start_when_active (device : string) (g : Inference.Globals) :
  Inference._STACK g <> None -> Inference.start_inference_mode device g = g.
Proof.
  unfold Inference.start_inference_mode.
  now destruct (Inference._STACK g).
Qed.

Lemma start_activates (device : string) (g : Inference.Globals) :
  Inference._STACK (Inference.start_inference_mode device g) <> None.
Proof.
  unfold Inference.start_inference_mode.
  destruct (Inference._STACK g) eqn:E; [now rewrite E | discriminate].
Qed.

(** C10 (start_inference_mode, lines 25-38).  After a call of
    [start_inference_mode] the stack is set; any number of further calls,
    with any device, leave the globals as they are, so no new context is
    entered; [reset_inference_mode] then succeeds and sets the stack back
    to [None], after which a call enters a context again. *)
Theorem start_inference_mode_is_idempotent (device : string)
  (devices : list string) (g : Inference.Globals) :
  Inference._STACK (Inference.start_inference_mode device g) <> None
  /\ fold_left (fun s d => Inference.start_inference_mode d s) devices
       (Inference.start_inference_mode device g)
     = Inference.start_inference_mode device g
  /\ exists g2,
       Inference.reset_inference_mode (Inference.start_inference_mode device g)
       = Ok g2
       /\ Inference._STACK g2 = None
       /\ Inference.entered (Inference.start_inference_mode device g2)
          = S (Inference.entered (Inference.start_inference_mode device g)).
Proof.
  pose proof (start_activates device g) as Hact.
  set (g1 := Inference.start_inference_mode device g) in *.
  split; [exact Hact|]. split.
  - induction devices as [|d devices IH]; [reflexivity|].
    cbn [fold_left]. now rewrite start_when_active.
  - unfold Inference.reset_inference_mode.
    destruct (Inference._STACK g1) as [stack|]; [|contradiction].
    eexists. split; [reflexivity|]. split; reflexivity.
Qed.

(** * The functions on concrete inputs *)

(** ** Gzip extraction *)

(** C1, as stated, fails.  The archive /d/x.gz decompresses to the three
    bytes "abc"; after the extraction the output /d/x holds these three
    bytes and not a byte more, so no trailing block is duplicated. *)
Lemma gzip_last_block_is_written_once :
  Demo.demo_gunzip Demo.gz_bytes = ([x61; x62; x63], true)
  /\ snd (extract_archive Demo.libs "/d/x.gz" None false Demo.gz_world)
     = Ok ["/d/x"]
  /\ read_file (fst (extract_archive Demo.libs "/d/x.gz" None false Demo.gz_world))
       "/d/x" = Some [x61; x62; x63]
  /\ read_file (fst (extract_archive Demo.libs "/d/x.gz" None false Demo.gz_world))
       "/d/x" <> Some ([x61; x62; x63] ++ [x61; x62; x63])%list.
Proof. vm_compute. repeat split; discriminate. Qed.

Lemma gzip_output_is_the_decompressed_content_witness :
  exists w' tr,
    extract_archive Demo.libs "/d/x.gz" None false Demo.gz_world =
    (w', Ok [Str.drop_last 3 "/d/x.gz"])
    /\ read_file w' (Str.drop_last 3 "/d/x.gz") = Some [x61; x62; x63]
    /\ trace w' =
       (trace Demo.gz_world
        ++ EvOpen "/d/x.gz" "rb" :: EvOpen (Str.drop_last 3 "/d/x.gz") "wb"
        :: tr
        ++ [EvRead "/d/x.gz" default_block_size;
            EvWrite (Str.drop_last 3 "/d/x.gz") [];
            EvClose (Str.drop_last 3 "/d/x.gz");
            EvClose "/d/x.gz"])%list.
Proof.
  apply (gzip_output_is_the_decompressed_content Demo.libs "/d/x.gz" None false
           Demo.gz_world Demo.gz_bytes [x61; x62; x63]); reflexivity.
Defined.

Lemma gzip_ignores_to_path_witness :
  (forall to_path' : option string,
     extract_archive Demo.libs "/d/x.gz" to_path' true Demo.gz_world =
     extract_archive Demo.libs "/d/x.gz" (Some "/elsewhere") true Demo.gz_world)
  /\ (Str.drop_last 3 "/d/x.gz" ++ ".gz")%string = "/d/x.gz"
  /\ exists w',
       extract_archive Demo.libs "/d/x.gz" (Some "/elsewhere") true Demo.gz_world =
       (w', Ok [Str.drop_last 3 "/d/x.gz"])
       /\ read_file w' (Str.drop_last 3 "/d/x.gz") = Some [x61; x62; x63].
Proof.
  apply (gzip_ignores_to_path Demo.libs "/d/x.gz" (Some "/elsewhere") true
           Demo.gz_world Demo.gz_bytes [x61; x62; x63]); reflexivity.
Defined.

(** ** Unsupported archives *)

Lemma unsupported_suffix_is_rejected_untouched_witness :
  extract_archive Demo.libs "/t/a.rar" None false Demo.zip_world =
  (Demo.zip_world,
   Raise (NotImplementedError
            "We currently only support tar.gz, .tgz, .gz and zip achives.")).
Proof.
  apply (unsupported_suffix_is_rejected_untouched Demo.libs "/t/a.rar" None false
           Demo.zip_world); reflexivity.
Defined.

(** ** Hash validation *)

(** C3, as stated, fails.  With the hash type "sha1", [_check_hash]
    raises [ValueError] only after it has opened the file, and so does the
    download path on a cached file: the trace, empty before the call,
    records the [open]. *)
Lemma unsupported_hash_type_opens_the_file :
  trace Demo.file_world = []
  /\ _check_hash Demo.libs "/d/f" "sha1:61" "sha1" Demo.file_world =
     (emits [EvOpen "/d/f" "rb"; EvClose "/d/f"] Demo.file_world, Raise ValueError)
  /\ trace Demo.cached_world = []
  /\ snd (download_from_url Demo.libs Demo.demo_url None ".data" false
            (Some "sha1:00010000") "sha1" Demo.cached_world) = Raise ValueError
  /\ In (EvOpen Demo.font_path "rb")
       (trace (fst (download_from_url Demo.libs Demo.demo_url None ".data" false
                      (Some "sha1:00010000") "sha1" Demo.cached_world))).
Proof.
  split; [reflexivity|]. split; [reflexivity|]. split; [reflexivity|].
  split; [reflexivity|]. vm_compute. tauto.
Qed.

Lemma unsupported_hash_type_is_rejected_unread_witness :
  validate_file Demo.libs (mkReader "/d/f" [x61]) "sha1:61" "sha1" Demo.file_world
  = (Demo.file_world, Raise ValueError)
  /\ _check_hash Demo.libs "/d/f" "sha1:61" "sha1" Demo.file_world =
     (emits [EvOpen "/d/f" "rb"; EvClose "/d/f"] Demo.file_world, Raise ValueError).
Proof.
  apply (unsupported_hash_type_is_rejected_unread Demo.libs (mkReader "/d/f" [x61])
           "/d/f" "sha1:61" "sha1" [x61] Demo.file_world);
    [discriminate | discriminate | reflexivity].
Defined.

Lemma hash_mismatch_raises_and_keeps_file_witness :
  exists w' k,
    _check_hash Demo.libs "/d/f" "sha256:62" "sha256" Demo.file_world =
    (w', Raise (RuntimeError
                  ("The hash of " ++ abspath Demo.libs "/d/f"
                   ++ " does not match. Delete the file manually and retry.")))
    /\ fs w' = fs Demo.file_world
    /\ read_file w' "/d/f" = Some [x61]
    /\ trace w' =
       (trace Demo.file_world ++ EvOpen "/d/f" "rb"
        :: repeat (EvRead "/d/f" (1024 ^ 2)) (S k) ++ [EvClose "/d/f"])%list
    /\ transfers (trace w') = transfers (trace Demo.file_world).
Proof.
  apply (hash_mismatch_raises_and_keeps_file Demo.libs "/d/f" "sha256:62" "sha256"
           [x61] Demo.file_world); [reflexivity | reflexivity | discriminate].
Defined.

(** ** Downloads *)

Lemma download_existing_is_not_transferred_witness :
  path_exists Demo.locked_world
    (destination_path Demo.libs Demo.demo_url None ".data") = true
  /\ (exists w',
        download_from_url Demo.libs Demo.demo_url None ".data" false
          (Some "md5:00010000") "md5" Demo.locked_world = (w', Ok Demo.font_path)
        /\ In (EvOpen Demo.font_path "rb") (trace w')
        /\ transfers (trace w') = [])
  /\ (exists w',
        download_from_url Demo.libs Demo.demo_url None ".data" false
          (Some "md5:00010001") "md5" Demo.locked_world =
        (w', Raise (RuntimeError
                      ("The hash of " ++ Demo.font_path
                       ++ " does not match. Delete the file manually and retry.")))
        /\ transfers (trace w') = []
        /\ read_file w' Demo.font_path = Some Demo.demo_font)
  /\ (exists w',
        download_from_url Demo.libs Demo.demo_url None ".data" false (Some "")
          "md5" Demo.locked_world = (w', Ok Demo.font_path)
        /\ trace w' = [EvAcquire Demo.font_lock; EvRelease Demo.font_lock]).
Proof.
  split; [reflexivity|]. split; [|split].
  - destruct (download_existing_is_not_transferred Demo.libs Demo.demo_url None
                ".data" (Some "md5:00010000") "md5" Demo.locked_world)
      as (w' & checks & Heq & Htrace & [reads Hchecks] & Htr & _);
      [reflexivity | reflexivity | apply not_elem_of_empty |].
    exists w'. split; [exact Heq|]. split; [|exact Htr].
    rewrite Htrace, Hchecks. cbn. auto.
  - destruct (download_existing_is_not_transferred Demo.libs Demo.demo_url None
                ".data" (Some "md5:00010001") "md5" Demo.locked_world)
      as (w' & checks & Heq & _ & _ & Htr & Hfs);
      [reflexivity | reflexivity | apply not_elem_of_empty |].
    exists w'. split; [exact Heq|]. split; [exact Htr|].
    unfold read_file. now rewrite Hfs.
  - destruct (download_existing_is_not_transferred Demo.libs Demo.demo_url None
                ".data" (Some "") "md5" Demo.locked_world)
      as (w' & checks & Heq & Htrace & Hchecks & _);
      [reflexivity | reflexivity | apply not_elem_of_empty |].
    exists w'. split; [exact Heq|].
    cbv iota beta in Hchecks. rewrite Htrace, Hchecks. reflexivity.
Defined.

(** ** Tar extraction *)








(** ** Zip extraction *)








(** * Further properties of the module *)

(** ** The inference-mode switch, there and back *)

(** X1 (start_inference_mode and reset_inference_mode, lines 28-38).
    Starting from globals without a stack, [start_inference_mode] turns
    inference mode on, and [reset_inference_mode] then puts torch's mode
    back to what it was and clears the stack; a second reset has no stack
    to close and raises [AttributeError]. *)
Theorem start_then_reset_restores_the_mode (device : string)
  (g : Inference.Globals) :
  Inference._STACK g = None ->
  Inference.inference_enabled (Inference.start_inference_mode device g) = true
  /\ exists g',
       Inference.reset_inference_mode (Inference.start_inference_mode device g)
       = Ok g'
       /\ Inference._STACK g' = None
       /\ Inference.inference_enabled g' = Inference.inference_enabled g
       /\ Inference.entered g' = S (Inference.entered g)
       /\ Inference.reset_inference_mode g' = Raise AttributeError.
Proof.
  intros Hnone. unfold Inference.start_inference_mode. rewrite Hnone.
  split; [reflexivity|].
  eexists. split; [reflexivity|]. repeat split.
Qed.

Lemma start_then_reset_restores_the_mode_witness :
  exists g',
    Inference.reset_inference_mode
      (Inference.start_inference_mode "cpu" (Inference.mkGlobals None false 0))
    = Ok g'
    /\ Inference.inference_enabled g' = false.
Proof.
  destruct (start_then_reset_restores_the_mode "cpu"
              (Inference.mkGlobals None false 0) eq_refl)
    as (_ & g' & Heq & _ & Hmode & _).
  exists g'. split; [exact Heq | exact Hmode].
Defined.

(** ** The reporting hook *)

Lemma last_cons_default {A} (b : A) (l : list A) (d : A) :
  List.last (b :: l) d = List.last l b.
Proof.
  revert b d. induction l as [|c l IH]; intros b d; [reflexivity|].
  change (List.last (b :: c :: l) d) with (List.last (c :: l) d).
  now rewrite (IH c d), (IH c b).
Qed.

Lemma report_from (bsize : Z) (blocks : list Z) :
  forall h : Progress.hook,
    Progress.n (Progress.bar (Progress.report bsize blocks h))
    = (Progress.n (Progress.bar h)
       + (List.last blocks (Progress.last_b h) - Progress.last_b h) * bsize)%Z
    /\ Progress.last_b (Progress.report bsize blocks h)
       = List.last blocks (Progress.last_b h)
    /\ Progress.total (Progress.bar (Progress.report bsize blocks h))
       = Progress.total (Progress.bar h).
Proof.
  unfold Progress.report.
  induction blocks as [|b blocks IH]; intros h.
  - cbn. repeat split. lia.
  - cbn [fold_left].
    destruct (IH (Progress.inner b bsize None h)) as (Hn & Hl & Ht).
    rewrite Hn, Hl, Ht. cbn [Progress.inner Progress.bar Progress.last_b
      Progress.update Progress.n Progress.total].
    rewrite (last_cons_default b blocks (Progress.last_b h)).
    repeat split. lia.
Qed.

(** X2 (reporthook, lines 123-143).  Reported with one block size, the
    counter of the bar advances by the last block count times the block
    size, whatever the counts reported in between were, in whatever
    order; with no total given, the total of the bar stays. *)
Theorem report_counts_up_to_the_last_block (bsize : Z) (blocks : list Z)
  (t : Progress.tqdm) :
  Progress.n (Progress.bar (Progress.report bsize blocks (Progress.reporthook t)))
  = (Progress.n t + List.last blocks 0 * bsize)%Z
  /\ Progress.total
       (Progress.bar (Progress.report bsize blocks (Progress.reporthook t)))
     = Progress.total t.
Proof.
  destruct (report_from bsize blocks (Progress.reporthook t)) as (Hn & _ & Ht).
  split; [|exact Ht]. rewrite Hn. cbn [Progress.reporthook Progress.bar Progress.last_b].
  f_equal. f_equal. lia.
Qed.

(** ** More on hash validation *)

Lemma split_at_length {A} (n : N) (l : list A) :
  forall a b,
    split_at n l = (a, b) ->
    N.of_nat (length a) = N.min n (N.of_nat (length l)).
Proof.
  revert n. induction l as [|x t IH]; intros n a b; simpl.
  - intros [= <- <-]. simpl. lia.
  - destruct (N.eqb n 0) eqn:Hn.
    + intros [= <- <-]. apply N.eqb_eq in Hn. simpl. lia.
    + destruct (split_at (N.pred n) t) as [a' b'] eqn:E.
      intros [= <- <-]. apply N.eqb_neq in Hn.
      specialize (IH (N.pred n) a' b' E). simpl length. lia.
Qed.

Lemma reads_of_step (la lb : nat) :
  1 <= la ->
  N.of_nat la = N.min (1024 ^ 2) (N.of_nat (la + lb)) ->
  reads_of (la + lb) = S (reads_of lb).
Proof.
  unfold reads_of. change (1024 ^ 2)%N with 1048576%N.
  change (1048576 - 1)%N with 1048575%N.
  intros Hla Hmin. f_equal.
  destruct (N.le_gt_cases (N.of_nat (la + lb)) 1048576) as [Hle | Hgt].
  - assert (lb = 0) by lia. subst lb.
    replace ((N.of_nat 0 + 1048575) / 1048576)%N with 0%N
      by (symmetry; apply N.div_small; lia).
    replace ((N.of_nat (la + 0) + 1048575) / 1048576)%N with 1%N; [reflexivity|].
    apply (N.div_unique _ _ 1 (N.of_nat (la + 0) - 1)); lia.
  - assert (Hsz : N.of_nat la = 1048576%N) by lia.
    replace (N.of_nat (la + lb) + 1048575)%N
      with (1 * 1048576 + (N.of_nat lb + 1048575))%N by lia.
    rewrite N.div_add_l by lia. lia.
Qed.

Section MoreHashing.

Context (L : Libs).

(** The loop makes as many reads as the length of the rest asks for. *)
Lemma hash_loop_count (n : string) (fuel : nat) :
  forall (rest : bytes) (h : hash_obj) (w : World),
    length rest <= fuel ->
    hash_loop fuel (mkReader n rest) h w =
    (emits (repeat (EvRead n (1024 ^ 2)) (reads_of (length rest))) w,
     Ok (mkReader n [], mkHash (h_alg h) (h_fed h ++ rest))).
Proof.
  induction fuel as [|fuel IH]; intros rest h w Hlen;
    rewrite hash_loop_eq; unfold bind, read; cbn [r_rest r_name].
  - destruct rest; [|simpl in Hlen; lia].
    cbn. rewrite app_nil_r. now destruct h.
  - destruct rest as [|x t].
    + cbn. rewrite app_nil_r. now destruct h.
    + destruct (split_at_cons (1024 ^ 2) x t) as (a & b & Hs & ->); [easy|].
      pose proof (split_at_length _ _ _ _ Hs) as Hmin.
      rewrite Hs. unfold update.
      rewrite (IH b (mkHash (h_alg h) (h_fed h ++ x :: a))
                 (emit (EvRead n (1024 ^ 2)) w))
        by (simpl in Hlen; rewrite length_app in Hlen; lia).
      cbn [h_alg h_fed].
      replace (length (x :: a ++ b)) with (length (x :: a) + length b)
        by (simpl; rewrite length_app; reflexivity).
      rewrite reads_of_step; [|simpl; lia|].
      * rewrite emit_emits, emits_emits, <- app_assoc. reflexivity.
      * rewrite Hmin. f_equal. simpl. rewrite length_app. lia.
Qed.

(** X4 (validate_file, lines 146-167).  With a supported hash type,
    [validate_file] hashes every byte from the position of the file
    object to the end and returns whether the digest is the expected
    value; it leaves the file object at the end, and makes one read per
    chunk of 1024 ** 2 bytes plus the read that returns nothing, touching
    neither the file system nor anything else in the world. *)
Theorem validate_file_reads_the_rest_in_chunks (n : string) (c : bytes)
  (hash_value hash_type : string) (w : World) :
  supported hash_type = true ->
  validate_file L (mkReader n c) hash_value hash_type w =
  (emits (repeat (EvRead n (1024 ^ 2)) (reads_of (length c))) w,
   Ok (String.eqb (hexdigest L hash_type c) hash_value, mkReader n [])).
Proof.
  intros Hty. unfold supported in Hty. unfold validate_file, bind at 1.
  rewrite Hty. unfold ret at 1. cbn [r_rest]. unfold bind.
  now rewrite (hash_loop_count n (length c) c (mkHash hash_type []) w).
Qed.

(** X5 (validate_file, lines 146-167).  [validate_file] does not rewind:
    called again on the file object it has read, it hashes nothing and
    compares the digest of the empty input with the expected value. *)
Theorem validate_file_again_hashes_nothing (n : string) (c : bytes)
  (hash_value hash_type : string) (w : World) :
  supported hash_type = true ->
  exists w1 verdict file_obj,
    validate_file L (mkReader n c) hash_value hash_type w
    = (w1, Ok (verdict, file_obj))
    /\ validate_file L file_obj hash_value hash_type w1
       = (emits [EvRead n (1024 ^ 2)] w1,
          Ok (String.eqb (hexdigest L hash_type []) hash_value, file_obj)).
Proof.
  intros Hty. unfold supported in Hty.
  assert (Hrun : forall c0 w0,
    validate_file L (mkReader n c0) hash_value hash_type w0 =
    (emits (repeat (EvRead n (1024 ^ 2)) (reads_of (length c0))) w0,
     Ok (String.eqb (hexdigest L hash_type c0) hash_value, mkReader n []))).
  { intros c0 w0. unfold validate_file, bind at 1.
    rewrite Hty. unfold ret at 1. cbn [r_rest]. unfold bind.
    now rewrite (hash_loop_count n (length c0) c0 (mkHash hash_type []) w0). }
  eexists _, _, _. split; [apply Hrun|]. now rewrite Hrun.
Qed.

(** X6 (_check_hash, lines 170-178).  Whatever the verdict, [_check_hash]
    changes neither the file system nor the locks.  When the path is a
    regular file, the file is opened first and closed last, also when the
    check raises; when the path is a directory or nothing, the [open]
    raises and nothing else happens. *)
Theorem check_hash_only_reads (path hash_value hash_type : string) (w : World) :
  fs (fst (_check_hash L path hash_value hash_type w)) = fs w
  /\ busy (fst (_check_hash L path hash_value hash_type w)) = busy w
  /\ match stat (fs w) path with
     | Some (File c) =>
         exists tr,
           trace (fst (_check_hash L path hash_value hash_type w))
           = (trace w ++ EvOpen path "rb" :: tr ++ [EvClose path])%list
     | Some Dir =>
         _check_hash L path hash_value hash_type w
         = (emit (EvOpen path "rb") w, Raise (IsADirectoryError path))
     | None =>
         _check_hash L path hash_value hash_type w
         = (emit (EvOpen path "rb") w, Raise (FileNotFoundError path))
     end.
Proof.
  destruct (stat (fs w) path) as [[c|]|] eqn:Hst.
  - assert (Hrd : read_file w path = Some c) by (unfold read_file; now rewrite Hst).
    destruct (supported hash_type) eqn:Hty.
    + destruct (check_hash_supported L path hash_value hash_type c w Hrd Hty)
        as [k ->].
      cbn [fst emits fs busy trace]. repeat split. now eexists.
    + rewrite (check_hash_unsupported L path hash_value hash_type c w Hrd Hty).
      cbn [fst emits fs busy trace]. repeat split. now exists [].
  - unfold _check_hash, bind, open_rb. cbn [fs emit]. rewrite Hst. now cbn.
  - unfold _check_hash, bind, open_rb. cbn [fs emit]. rewrite Hst. now cbn.
Qed.

End MoreHashing.

(** ** More on downloads *)

Section MoreDownload.

Context (L : Libs).

(** X7 (download_from_url, lines 211-213).  When the lock of the
    destination is held by another process, the call raises the timeout
    of the lock: the lock directory may have been created, and nothing
    else has happened, no check of the destination, no transfer. *)
Theorem busy_lock_times_out (url : string) (path : option string) (root : string)
  (overwrite : bool) (hash_value : option string) (hash_type : string) (w : World) :
  lock_path L (destination_filename L url path root) ∈ busy w ->
  exists w' mk,
    download_from_url L url path root overwrite hash_value hash_type w =
    (w', Raise (Timeout (lock_path L (destination_filename L url path root))))
    /\ trace w' = (trace w ++ mk)%list
    /\ (mk = [] \/ mk = [EvMakedirs (lock_dir L)])
    /\ forall p, stat (fs w) p <> None -> stat (fs w') p = stat (fs w) p.
Proof.
  unfold destination_filename, lock_path, download_from_url.
  destruct (destination L url path root) as [[dest rt] fn]. cbn [snd].
  intros Hbusy.
  destruct (get_lock_dir_spec L w) as (m & mk & Hg & Hmk & Hst).
  unfold bind at 1. rewrite Hg. fold (lock_dir L).
  unfold with_FileLock, bind at 1, acquire. cbn [busy].
  destruct (decide (Path.join (lock_dir L) (fn ++ ".lock") ∈ busy w));
    [|contradiction].
  eexists _, mk. split; [reflexivity|]. cbn [trace fs]. auto.
Qed.


(** X9 (download_from_url, lines 222-239).  When the destination does
    not exist, or [overwrite] is set, and no hash value is supplied, the
    call hands the URL and the destination to the transfer backend once,
    and its outcome is the backend's: the destination when the backend
    returns, the backend's exception when it raises; no file is opened
    for a hash check. *)
Theorem fresh_download_without_hash (url : string) (path : option string)
  (root : string) (overwrite : bool) (hash_value : option string)
  (hash_type : string) (w : World) :
  path_exists w (lock_dir L) = true ->
  lock_path L (destination_filename L url path root) ∉ busy w ->
  path_exists w (destination_root L url path root) = true ->
  path_exists w (destination_path L url path root) = false \/ overwrite = true ->
  supplied hash_value = None ->
  download_from_url L url path root overwrite hash_value hash_type w =
  (emit (EvRelease (lock_path L (destination_filename L url path root)))
     (fst (get_local_path L url (destination_path L url path root)
             (emits [EvAcquire (lock_path L (destination_filename L url path root));
                     EvTransfer url (destination_path L url path root)] w))),
   match snd (get_local_path L url (destination_path L url path root)
                (emits [EvAcquire (lock_path L (destination_filename L url path root));
                        EvTransfer url (destination_path L url path root)] w)) with
   | Ok _ => Ok (destination_path L url path root)
   | Raise e => Raise e
   end).
Proof.
  intros Hld Hfree Hrt Hfresh Hnone.
  rewrite (download_fresh_spec L url path root overwrite hash_value hash_type w
             Hld Hfree Hrt Hfresh).
  unfold finally, bind at 1, tell at 1. rewrite emit_emits, emits_emits.
  cbn [app]. unfold bind at 1.
  destruct (get_local_path L url (destination_path L url path root) _)
    as [w3 [[]|e]]; cbn [fst snd]; [|reflexivity].
  unfold bind, check_if_supplied. rewrite Hnone. reflexivity.
Qed.

(** X10 (download_from_url, lines 229-236).  An unsupported hash type is
    found out only after the transfer: on a fresh download with a hash
    value and a hash type other than "sha256" and "md5", the backend has
    fetched the file, the file is opened and closed unread, and the call
    raises [ValueError], leaving the fetched file in place. *)
Theorem unsupported_hash_type_is_found_after_the_transfer (url : string)
  (path : option string) (root : string) (overwrite : bool)
  (h hash_type : string) (w w3 : World) (c : bytes) :
  path_exists w (lock_dir L) = true ->
  lock_path L (destination_filename L url path root) ∉ busy w ->
  path_exists w (destination_root L url path root) = true ->
  path_exists w (destination_path L url path root) = false \/ overwrite = true ->
  get_local_path L url (destination_path L url path root)
    (emits [EvAcquire (lock_path L (destination_filename L url path root));
            EvTransfer url (destination_path L url path root)] w) = (w3, Ok tt) ->
  read_file w3 (destination_path L url path root) = Some c ->
  Str.truthy h = true ->
  supported hash_type = false ->
  download_from_url L url path root overwrite (Some h) hash_type w =
  (emits [EvOpen (destination_path L url path root) "rb";
          EvClose (destination_path L url path root);
          EvRelease (lock_path L (destination_filename L url path root))] w3,
   Raise ValueError)
  /\ read_file
       (emits [EvOpen (destination_path L url path root) "rb";
               EvClose (destination_path L url path root);
               EvRelease (lock_path L (destination_filename L url path root))] w3)
       (destination_path L url path root) = Some c.
Proof.
  intros Hld Hfree Hrt Hfresh Hget Hrd Hh Hty. split; [|exact Hrd].
  rewrite (download_fresh_spec L url path root overwrite (Some h) hash_type w
             Hld Hfree Hrt Hfresh).
  unfold finally, bind at 1, tell at 1. rewrite emit_emits, emits_emits.
  cbn [app]. unfold bind at 1. rewrite Hget.
  unfold bind at 1, check_if_supplied, supplied. rewrite Hh.
  rewrite (check_hash_unsupported L _ h hash_type c w3 Hrd Hty).
  unfold release, tell. now rewrite emit_emits, emits_emits.
Qed.

End MoreDownload.

(** ** More on archive extraction *)

Lemma bind_raises {A B} (m : M A) (k : A -> M B) (w w' : World) (e : exn) :
  m w = (w', Raise e) -> bind m k w = (w', Raise e).
Proof. intros H. unfold bind. now rewrite H. Qed.

Lemma read_file_writable (w : World) (p : string) (c : bytes) :
  read_file w p = Some c -> writable w p = true.
Proof.
  unfold read_file, stat, writable.
  destruct (Str.truthy p); [|discriminate].
  destruct (fs w !! node_key p) as [[c0|]|]; try discriminate.
  now destruct (Str.endswith p "/").
Qed.

Lemma open_wb_not_writable (p : string) (w : World) :
  writable w p = false ->
  exists e,
    open_wb p w = (emit (EvOpen p "wb") w, Raise e) /\ is_OSError e = true.
Proof.
  unfold writable, open_wb. cbn [fs emit]. intros H.
  destruct (Str.truthy p); cbn [negb]; [|now eexists].
  destruct (Str.endswith p "/"); [now eexists|].
  destruct (fs w !! node_key p) as [[c|]|]; try discriminate. now eexists.
Qed.

Section MoreExtraction.

Context (L : Libs).

(** Reading past the first [n] bytes. *)
Lemma split_at_add {A} (a b : list A) (m : N) :
  split_at (N.of_nat (length a) + m) (a ++ b)
  = ((a ++ fst (split_at m b))%list, snd (split_at m b)).
Proof.
  induction a as [|x a IH].
  - cbn [length app]. change (N.of_nat 0) with 0%N. rewrite N.add_0_l.
    now destruct (split_at m b).
  - cbn [app split_at].
    replace (N.of_nat (length (x :: a)) + m)%N
      with (N.succ (N.of_nat (length a) + m)) by (cbn [length]; lia).
    destruct (N.eqb_spec (N.succ (N.of_nat (length a) + m)) 0) as [E|_]; [lia|].
    rewrite N.pred_succ, IH. reflexivity.
Qed.

Lemma full_blocks_short (size : N) (data : bytes) :
  (N.of_nat (length data) < size)%N -> full_blocks size data = [].
Proof.
  intros Hlt. unfold full_blocks. rewrite N.div_small by exact Hlt.
  rewrite N.mul_0_r. now destruct data.
Qed.

Lemma full_blocks_step (size : N) (a b : bytes) :
  size <> 0%N -> N.of_nat (length a) = size ->
  full_blocks size (a ++ b) = (a ++ full_blocks size b)%list.
Proof.
  intros Hsize Ha. unfold full_blocks.
  replace (N.of_nat (length (a ++ b)))
    with (1 * size + N.of_nat (length b))%N by (rewrite length_app; lia).
  rewrite N.div_add_l by exact Hsize.
  replace (size * (1 + N.of_nat (length b) / size))%N
    with (N.of_nat (length a) + size * (N.of_nat (length b) / size))%N by lia.
  now rewrite split_at_add.
Qed.

(** On a stream that does not end cleanly the loop writes the full
    blocks and raises at the read that cannot be filled. *)
Lemma gz_loop_cut_short (n d : string) (err : exn) (fuel : nat) :
  forall (rest c0 : bytes) (w : World),
    length rest <= fuel ->
    fs w !! node_key d = Some (File c0) ->
    exists tr,
      gz_loop fuel (mkGz n rest false err) d w =
      ({| fs := <[node_key d :=
                    File (c0 ++ full_blocks default_block_size rest)]> (fs w);
          trace := trace w ++ tr ++ [EvRead n default_block_size];
          busy := busy w |}, Raise err).
Proof.
  assert (Hstop : forall (rest c0 : bytes) (w : World),
    (N.of_nat (length rest) < default_block_size)%N ->
    fs w !! node_key d = Some (File c0) ->
    (emit (EvRead n default_block_size) w, @Raise bytes err) =
    ({| fs := <[node_key d :=
                  File (c0 ++ full_blocks default_block_size rest)]> (fs w);
        trace := trace w ++ [] ++ [EvRead n default_block_size];
        busy := busy w |}, Raise err)).
  { intros rest c0 w Hlt Hd. rewrite full_blocks_short by exact Hlt.
    unfold emit. now rewrite app_nil_r, insert_id by exact Hd. }
  induction fuel as [|fuel IH]; intros rest c0 w Hlen Hd;
    rewrite gz_loop_eq; unfold bind at 1, gz_read;
    cbn [g_rest g_name g_clean g_error].
  - destruct rest; [|simpl in Hlen; lia].
    exists []. now apply Hstop.
  - destruct rest as [|x t]; [exists []; now apply Hstop|].
    cbn [orb].
    destruct (N.leb_spec default_block_size (N.of_nat (length (x :: t))))
      as [Hfull | Hshort]; [|exists []; now apply Hstop].
    destruct (split_at_cons default_block_size x t) as (a & b & Hs & ->); [easy|].
    pose proof (split_at_length _ _ _ _ Hs) as Hmin. rewrite Hs.
    assert (Hblock : N.of_nat (length (x :: a)) = default_block_size).
    { change (x :: a ++ b)%list with ((x :: a) ++ b)%list in Hmin, Hfull. lia. }
    unfold bind at 1, write. cbn [fs emit]. rewrite Hd.
    destruct (IH b (c0 ++ x :: a)%list
                (set_fs (<[node_key d := File (c0 ++ x :: a)]> (fs w))
                   (emit (EvWrite d (x :: a)) (emit (EvRead n default_block_size) w))))
      as [tr Htr].
    { simpl in Hlen. rewrite length_app in Hlen. lia. }
    { cbn [fs set_fs]. apply lookup_insert_eq. }
    exists (EvRead n default_block_size :: EvWrite d (x :: a) :: tr).
    rewrite Htr. cbn [fs set_fs emit trace busy].
    change (x :: a ++ b)%list with ((x :: a) ++ b)%list.
    rewrite (full_blocks_step default_block_size (x :: a) b) by easy.
    rewrite insert_insert_eq, <- !app_assoc. reflexivity.
Qed.

(** X11 (extract_archive, lines 298-312).  The gzip branch does not look
    at [overwrite]: with [overwrite] false and the output file already
    there, the file is replaced by the decompressed content. *)
Theorem gzip_replaces_an_existing_output (from_path : string)
  (to_path : option string) (w : World) (c data old : bytes) :
  Str.endswith from_path ".gz" = true ->
  Str.endswith from_path ".tar.gz" = false ->
  Str.endswith from_path ".tgz" = false ->
  read_file w from_path = Some c ->
  gunzip L c = (data, true) ->
  read_file w (Str.drop_last 3 from_path) = Some old ->
  exists w',
    extract_archive L from_path to_path false w =
    (w', Ok [Str.drop_last 3 from_path])
    /\ read_file w' (Str.drop_last 3 from_path) = Some data.
Proof.
  intros Hgz Htar Htgz Hc Hz Hold.
  pose proof (read_file_writable _ _ _ Hold) as Hw.
  destruct (gz_extract_spec L from_path to_path false w c data
              Hgz Htar Htgz Hc Hz Hw) as [tr Htr].
  eexists. split; [exact Htr|].
  apply writable_inv in Hw as [Ht Hs].
  unfold read_file. cbn [fs]. now rewrite stat_insert_eq.
Qed.

(** X12 (extract_archive, lines 298-312).  When the gzip stream is cut
    short or damaged, the call raises the error of the stream, and the
    output file stays behind: whatever it held before, it now holds the
    full blocks of 65536 bytes that were read before the damage, and no
    byte of the block in which the damage was met; for a stream with less
    than one block to give, the output is empty.  Both files have been
    closed. *)
Theorem gzip_cut_short_leaves_a_partial_output (from_path : string)
  (to_path : option string) (overwrite : bool) (w : World) (c data : bytes) :
  Str.endswith from_path ".gz" = true ->
  Str.endswith from_path ".tar.gz" = false ->
  Str.endswith from_path ".tgz" = false ->
  read_file w from_path = Some c ->
  gunzip L c = (data, false) ->
  writable w (Str.drop_last 3 from_path) = true ->
  exists w' tr,
    extract_archive L from_path to_path overwrite w
    = (w', Raise (gzip_error L c))
    /\ read_file w' (Str.drop_last 3 from_path)
       = Some (full_blocks default_block_size data)
    /\ ((N.of_nat (length data) < default_block_size)%N ->
        read_file w' (Str.drop_last 3 from_path) = Some [])
    /\ trace w' =
       (trace w
        ++ EvOpen from_path "rb" :: EvOpen (Str.drop_last 3 from_path) "wb"
        :: tr
        ++ [EvRead from_path default_block_size;
            EvClose (Str.drop_last 3 from_path);
            EvClose from_path])%list.
Proof.
  intros Hgz Htar Htgz Hc Hz Hw. rewrite gz_branch by assumption.
  set (filename := Str.drop_last 3 from_path) in *.
  set (w0 := emit (EvOpen from_path "rb") w).
  set (w1 := set_fs (<[node_key filename := File []]> (fs w))
               (emit (EvOpen filename "wb") w0)).
  destruct (gz_loop_cut_short from_path filename (gzip_error L c) (length data)
              data [] w1)
    as [tr Hloop]; [lia | apply lookup_insert_eq |].
  assert (Hopen : gzip_open L from_path w
                  = (w0, Ok (mkGz from_path data false (gzip_error L c)))).
  { unfold gzip_open. rewrite (bind_ok _ _ _ _ _ (open_rb_file _ _ _ Hc)).
    cbn [r_rest]. now rewrite Hz. }
  rewrite (bind_ok _ _ _ _ _ Hopen). cbn [g_rest].
  match type of Hloop with _ = (?x, _) => set (w2 := x) in * end.
  assert (Hbody :
    (d_file <- open_wb filename ;;
     finally
       (block <- gz_loop (length data)
                   (mkGz from_path data false (gzip_error L c)) d_file ;;
        write d_file block)
       (close filename)) w0 =
    (emit (EvClose filename) w2, Raise (gzip_error L c))).
  { rewrite (bind_ok _ _ _ _ _ (open_wb_writable filename w0 Hw)).
    apply finally_close. now apply bind_raises. }
  rewrite (bind_raises _ _ _ _ _ (finally_close _ from_path _ _ _ Hbody)).
  eexists _, tr. split; [reflexivity|].
  apply writable_inv in Hw as [Ht Hs].
  assert (Hrd : read_file (emit (EvClose from_path) (emit (EvClose filename) w2))
                  filename = Some (full_blocks default_block_size data)).
  { unfold read_file. cbn [fs emit w2 w1 set_fs].
    now rewrite insert_insert_eq, stat_insert_eq. }
  split; [exact Hrd|]. split.
  - intros Hshort. rewrite Hrd. now rewrite full_blocks_short.
  - cbn [trace emit w2 w1 w0 set_fs]. now rewrite <- !app_assoc.
Qed.

(** X13 (extract_archive, lines 298-312).  When the gzip archive cannot
    be opened, or the output cannot be created, the call raises the
    error of the [open] that failed and the file system is as before: no
    output file is created, and nothing is decompressed. *)
Theorem gzip_open_failure_changes_nothing (from_path : string)
  (to_path : option string) (overwrite : bool) (w : World) :
  Str.endswith from_path ".gz" = true ->
  Str.endswith from_path ".tar.gz" = false ->
  Str.endswith from_path ".tgz" = false ->
  read_file w from_path = None
  \/ writable w (Str.drop_last 3 from_path) = false ->
  exists w' e tr,
    extract_archive L from_path to_path overwrite w = (w', Raise e)
    /\ is_OSError e = true
    /\ fs w' = fs w
    /\ trace w' = (trace w ++ tr)%list
    /\ Forall (fun ev => forall p size, ev <> EvRead p size) tr.
Proof.
  intros Hgz Htar Htgz Hfail. rewrite gz_branch by assumption.
  destruct (read_file w from_path) as [c|] eqn:Hc.
  - destruct Hfail as [Hfail | Hw]; [discriminate|].
    destruct (gunzip L c) as [data clean] eqn:Hz.
    assert (Hopen : gzip_open L from_path w
                    = (emit (EvOpen from_path "rb") w,
                       Ok (mkGz from_path data clean (gzip_error L c)))).
    { unfold gzip_open. rewrite (bind_ok _ _ _ _ _ (open_rb_file _ _ _ Hc)).
      cbn [r_rest]. now rewrite Hz. }
    rewrite (bind_ok _ _ _ _ _ Hopen). cbn [g_rest].
    destruct (open_wb_not_writable (Str.drop_last 3 from_path)
                (emit (EvOpen from_path "rb") w) Hw) as (e & Hwb & He).
    erewrite bind_raises.
    2:{ apply finally_close. apply bind_raises. exact Hwb. }
    rewrite !emit_emits, !emits_emits.
    eexists _, e, _. split; [reflexivity|]. split; [exact He|].
    split; [reflexivity|]. split; [reflexivity|].
    cbn [app]. repeat constructor; discriminate.
  - unfold gzip_open, bind, open_rb. cbn [fs emit].
    unfold read_file in Hc.
    destruct (stat (fs w) from_path) as [[c|]|]; try discriminate;
      (eexists _, _, [EvOpen from_path "rb"]; split; [reflexivity|];
       split; [reflexivity|]; split; [reflexivity|]; split; [reflexivity|]);
      repeat constructor; discriminate.
Qed.

(** With [overwrite] false, names whose paths exist are listed and not
    extracted. *)
Lemma zip_loop_skips (zfile : bytes) (to_path : string) (namelist : list string)
  (w : World) :
  (forall n, In n namelist -> path_exists w (Path.join to_path n) = true) ->
  forall files : list string,
    zip_loop L zfile namelist to_path false files w =
    (w, Ok (files ++ map (Path.join to_path) namelist)%list).
Proof.
  induction namelist as [|n namelist IH]; intros Hex files; cbn [zip_loop map].
  - unfold ret. now rewrite app_nil_r.
  - unfold bind at 1, os_path_exists. rewrite (Hex n (or_introl eq_refl)).
    cbn [negb]. rewrite IH by (intros n' Hin; apply Hex; now right).
    now rewrite <- app_assoc.
Qed.

Lemma tar_loop_skips (to_path : string) (tar : list TarInfo) (w : World) :
  (forall m, In m tar ->
     isfile m = true /\ path_exists w (member_path to_path m) = true) ->
  forall files : list string,
    tar_loop L tar to_path false files w =
    (w, Ok (files ++ map (member_path to_path) tar)%list).
Proof.
  induction tar as [|m tar IH]; intros Hex files; cbn [tar_loop map].
  - unfold ret. now rewrite app_nil_r.
  - destruct (Hex m (or_introl eq_refl)) as [Hm Hp]. rewrite Hm.
    fold (member_path to_path m).
    unfold bind at 1, os_path_exists. rewrite Hp. cbn [negb].
    rewrite IH by (intros m' Hin; apply Hex; now right).
    now rewrite <- app_assoc.
Qed.


(** X15 (extract_archive, lines 281-296).  Extracting a zip archive again
    with [overwrite] false, when the path of every name of the archive
    exists, extracts nothing, whatever [zfile.extract] would do: the
    archive is opened and closed, the file system is as before, and the
    listing is made of the paths that are regular files. *)
Theorem zip_reextraction_extracts_nothing (from_path : string)
  (to_path : option string) (w : World) (c : bytes) (names : list string) :
  Str.endswith from_path ".zip" = true ->
  read_file w from_path = Some c ->
  zip_namelist L c = Some names ->
  (forall n, In n names ->
     path_exists w (Path.join (target_dir from_path to_path) n) = true) ->
  extract_archive L from_path to_path false w =
  (emits [EvOpen from_path "rb"; EvClose from_path;
          EvOpen from_path "rb"; EvClose from_path] w,
   Ok (List.filter (path_isfile w)
         (map (Path.join (target_dir from_path to_path)) names))).
Proof.
  intros Hzip Hc Hn Hex. rewrite zip_branch by exact Hzip.
  rewrite (bind_ok _ _ _ _ _ (is_zipfile_spec L _ _ _ _ Hc Hn)). cbn [negb].
  set (w0 := emit (EvClose from_path) (emit (EvOpen from_path "rb") w)).
  assert (Hc0 : read_file w0 from_path = Some c) by exact Hc.
  rewrite (bind_ok _ _ _ _ _ (ZipFile_spec L _ _ _ _ Hc0 Hn)).
  rewrite (bind_ok _ _ _ _ _
             (finally_close _ _ _ _ _
                (zip_loop_skips c (target_dir from_path to_path) names
                   (emit (EvOpen from_path "rb") w0) Hex []))).
  unfold keep_files, w0. rewrite !emit_emits, !emits_emits. reflexivity.
Qed.

(** X16 (extract_archive, lines 265-279).  Extracting a tar archive of
    regular files again with [overwrite] false, when every file exists,
    extracts nothing, whatever [tar.extract] would do: the archive is
    opened and closed, the file system is as before, and the listing
    holds the path of every member, in archive order. *)
Theorem tar_reextraction_of_files_extracts_nothing (from_path : string)
  (to_path : option string) (w : World) (c : bytes) (tar : list TarInfo) :
  Str.endswith from_path ".tar.gz" || Str.endswith from_path ".tgz" = true ->
  read_file w from_path = Some c ->
  tar_members L c = Some tar ->
  (forall m, In m tar ->
     isfile m = true
     /\ path_exists w (member_path (target_dir from_path to_path) m) = true) ->
  extract_archive L from_path to_path false w =
  (emits [EvOpen from_path "rb"; EvClose from_path] w,
   Ok (map (member_path (target_dir from_path to_path)) tar)).
Proof.
  intros Hsuf Hc Htar Hex. rewrite tar_branch by exact Hsuf.
  rewrite (bind_ok _ _ _ _ _ (tarfile_open_spec L _ _ _ _ Hc Htar)).
  rewrite (finally_close _ _ _ _ _
             (tar_loop_skips (target_dir from_path to_path) tar
                (emit (EvOpen from_path "rb") w) Hex [])).
  rewrite !emit_emits, !emits_emits. reflexivity.
Qed.


End MoreExtraction.

(** ** Fonts and plots *)

Lemma str_app_inv_head (a x y : string) : a ++ x = a ++ y -> x = y.
Proof.
  induction a as [|c a IH]; [easy|].
  change (String c (a ++ x) = String c (a ++ y) -> x = y).
  intros [= H]. now apply IH.
Qed.

(** Joining two relative names to one directory gives two paths. *)
Lemma join_inj (a f1 f2 : string) :
  Str.startswith f1 "/" = false -> Str.startswith f2 "/" = false ->
  Path.join a f1 = Path.join a f2 -> f1 = f2.
Proof.
  intros H1 H2. unfold Path.join. rewrite H1, H2.
  destruct (String.eqb a "" || Str.endswith a "/"); intros H.
  - now apply str_app_inv_head in H.
  - apply str_app_inv_head in H. now apply (str_app_inv_head "/") in H.
Qed.

(** The entries of the dictionary. *)
Lemma mapping_entries (lang_type : option string) (url : string) :
  mapping !! lang_type = Some url ->
  (lang_type = None /\ snd (Path.split url) = "NotoSans-Regular.ttf")
  \/ (lang_type = Some "cjk" /\ snd (Path.split url) = "NotoSansCJKsc-Regular.otf")
  \/ (lang_type = Some "devanagari"
      /\ snd (Path.split url) = "NotoSansDevanagari-Regular.ttf")
  \/ (lang_type = Some "emoji" /\ snd (Path.split url) = "OpenSansEmoji.ttf").
Proof.
  unfold mapping. rewrite !lookup_insert, lookup_empty.
  repeat case_decide; subst; intros [= <-]; vm_compute; tauto.
Qed.

Section MoreCallers.

Context (L : Libs).

(** X18 (lang_type_to_font_path, lines 96-103).  A language type that is
    no key of the dictionary raises [KeyError] with that key, before
    anything is looked up on disk or fetched: the world is as before. *)
Theorem unknown_lang_type_raises_KeyError (lang_type : option string) (w : World) :
  lang_type <> None ->
  lang_type <> Some "cjk" ->
  lang_type <> Some "devanagari" ->
  lang_type <> Some "emoji" ->
  lang_type_to_font_path L lang_type w = (w, Raises (KeyError lang_type)).
Proof.
  intros H0 H1 H2 H3. unfold lang_type_to_font_path, mapping.
  rewrite !lookup_insert_ne, lookup_empty by congruence. reflexivity.
Qed.

(** X19 (lang_type_to_font_path, lines 96-103; download_from_url, lines
    201-204).  The fonts of two different language types are downloaded
    to two different files of the cache directory: no font is taken for
    the cached font of another language type. *)
Theorem fonts_are_cached_under_their_own_names (lang_1 lang_2 : option string)
  (url_1 url_2 : string) :
  mapping !! lang_1 = Some url_1 ->
  mapping !! lang_2 = Some url_2 ->
  lang_1 <> lang_2 ->
  destination_path L url_1 None (_CACHE_DIR L)
  <> destination_path L url_2 None (_CACHE_DIR L).
Proof.
  intros H1 H2 Hne Heq.
  change (Path.join (abspath L (_CACHE_DIR L)) (snd (Path.split url_1))
          = Path.join (abspath L (_CACHE_DIR L)) (snd (Path.split url_2))) in Heq.
  apply mapping_entries in H1, H2.
  destruct H1 as [[-> E1] | [[-> E1] | [[-> E1] | [-> E1]]]];
  destruct H2 as [[-> E2] | [[-> E2] | [[-> E2] | [-> E2]]]];
    try (now contradiction Hne);
    rewrite E1, E2 in Heq; apply join_inj in Heq; try reflexivity;
    discriminate Heq.
Qed.

Context {Model Image Probs Figure Axes : Type}.
Context (classify_percent : Model -> string -> list string -> Py Probs).
Context (get_cropped_images : Model -> string -> Py Image).
Context (subplots_1_2 : Py (Figure * (Axes * Axes))).
Context (imshow : Axes -> Image -> Py unit).
Context (axis_off : Axes -> Py unit).
Context (plot_probs :
  list string -> Probs -> Figure * Axes -> option string -> Py unit).

(** X20 (predict_probs_and_plot, lines 85-93).  With [plot_image] false
    the call never returns: [fig] and [ax_2] are assigned only when the
    image is plotted, so once the probabilities are computed, reading
    [fig] raises [UnboundLocalError], and [plot_probs] is not called;
    an exception of the prediction comes first.  The argument [fig_ax]
    makes no difference. *)
Theorem plot_without_image_never_returns (model : Model) (image_path : string)
  (texts : list string) (fig_ax : option (Figure * Axes))
  (lang_type : option string) (w : World) :
  predict_probs_and_plot L classify_percent get_cropped_images subplots_1_2
    imshow axis_off plot_probs model image_path texts false fig_ax lang_type w
  = (fst (predict_probs_for_image L classify_percent model image_path texts w),
     match snd (predict_probs_for_image L classify_percent model image_path texts w)
     with
     | Returns _ => Raises (UnboundLocalError "fig")
     | Raises e => Raises e
     end)
  /\ snd (predict_probs_and_plot L classify_percent get_cropped_images
            subplots_1_2 imshow axis_off plot_probs model image_path texts
            false fig_ax lang_type w) <> Returns tt.
Proof.
  assert (Heq :
    predict_probs_and_plot L classify_percent get_cropped_images subplots_1_2
      imshow axis_off plot_probs model image_path texts false fig_ax lang_type w
    = (fst (predict_probs_for_image L classify_percent model image_path texts w),
       match snd (predict_probs_for_image L classify_percent model image_path texts w)
       with
       | Returns _ => Raises (UnboundLocalError "fig")
       | Raises e => Raises e
       end)).
  { unfold predict_probs_and_plot, and_then at 1, returns at 1.
    unfold and_then at 1.
    destruct (predict_probs_for_image L classify_percent model image_path texts w)
      as [w1 [probs|e]]; reflexivity. }
  split; [exact Heq|]. rewrite Heq. cbn [snd].
  now destruct (snd (predict_probs_for_image L classify_percent model image_path
                       texts w)).
Qed.

End MoreCallers.

(** * The further properties on concrete inputs *)

(** ** Hash validation *)

Lemma validate_file_reads_the_rest_in_chunks_witness :
  validate_file Demo.libs (mkReader "/d/f" [x61]) "sha256:61" "sha256"
    Demo.file_world =
  (emits [EvRead "/d/f" (1024 ^ 2); EvRead "/d/f" (1024 ^ 2)] Demo.file_world,
   Ok (true, mkReader "/d/f" [])).
Proof.
  apply (validate_file_reads_the_rest_in_chunks Demo.libs "/d/f" [x61]
           "sha256:61" "sha256" Demo.file_world).
  reflexivity.
Defined.

Lemma validate_file_again_hashes_nothing_witness :
  exists w1 verdict file_obj,
    validate_file Demo.libs (mkReader "/d/f" [x61]) "sha256:61" "sha256"
      Demo.file_world = (w1, Ok (verdict, file_obj))
    /\ validate_file Demo.libs file_obj "sha256:61" "sha256" w1
       = (emits [EvRead "/d/f" (1024 ^ 2)] w1, Ok (false, file_obj)).
Proof.
  apply (validate_file_again_hashes_nothing Demo.libs "/d/f" [x61]
           "sha256:61" "sha256" Demo.file_world).
  reflexivity.
Defined.

(** ** Downloads *)

Lemma busy_lock_times_out_witness :
  exists w',
    download_from_url Demo.libs Demo.demo_url None ".data" true None "sha256"
      Demo.busy_world = (w', Raise (Timeout Demo.font_lock))
    /\ read_file w' Demo.font_path = Some Demo.demo_font.
Proof.
  destruct (busy_lock_times_out Demo.libs Demo.demo_url None ".data" true None
              "sha256" Demo.busy_world) as (w' & mk & Heq & _ & _ & Hkeep).
  - change (Demo.font_lock ∈ ({[Demo.font_lock]} : gset string)).
    now apply elem_of_singleton_2.
  - exists w'. split; [exact Heq|].
    unfold read_file. rewrite Hkeep; [reflexivity | discriminate].
Defined.


Lemma fresh_download_without_hash_witness :
  snd (download_from_url Demo.libs Demo.demo_url None ".data" false None "sha256"
         Demo.fresh_world) = Ok Demo.font_path
  /\ read_file
       (fst (download_from_url Demo.libs Demo.demo_url None ".data" false None
               "sha256" Demo.fresh_world)) Demo.font_path
     = Some Demo.demo_font.
Proof.
  rewrite (fresh_download_without_hash Demo.libs Demo.demo_url None ".data" false
             None "sha256" Demo.fresh_world);
    [ split; reflexivity
    | reflexivity
    | apply not_elem_of_empty
    | reflexivity
    | left; reflexivity
    | reflexivity ].
Defined.

Lemma unsupported_hash_type_is_found_after_the_transfer_witness :
  snd (download_from_url Demo.libs Demo.demo_url None ".data" false
         (Some "sha1:00010000") "sha1" Demo.fresh_world) = Raise ValueError
  /\ read_file
       (fst (download_from_url Demo.libs Demo.demo_url None ".data" false
               (Some "sha1:00010000") "sha1" Demo.fresh_world)) Demo.font_path
     = Some Demo.demo_font.
Proof.
  destruct (unsupported_hash_type_is_found_after_the_transfer Demo.libs
              Demo.demo_url None ".data" false "sha1:00010000" "sha1"
              Demo.fresh_world
              (fst (Demo.demo_get_local_path Demo.demo_url Demo.font_path
                      (emits [EvAcquire Demo.font_lock;
                              EvTransfer Demo.demo_url Demo.font_path]
                         Demo.fresh_world)))
              Demo.demo_font) as [Heq Hrd];
    [ reflexivity
    | apply not_elem_of_empty
    | reflexivity
    | left; reflexivity
    | reflexivity
    | reflexivity
    | reflexivity
    | reflexivity
    | ].
  rewrite Heq. split; [reflexivity | exact Hrd].
Defined.

(** ** Gzip extraction *)

Lemma gzip_replaces_an_existing_output_witness :
  exists w',
    extract_archive Demo.libs "/d/x.gz" None false
      (Demo.world [("/d/x.gz", File Demo.gz_bytes); ("/d/x", File [x7a; x7a])])
    = (w', Ok ["/d/x"])
    /\ read_file w' "/d/x" = Some [x61; x62; x63].
Proof.
  apply (gzip_replaces_an_existing_output Demo.libs "/d/x.gz" None
           (Demo.world [("/d/x.gz", File Demo.gz_bytes); ("/d/x", File [x7a; x7a])])
           Demo.gz_bytes [x61; x62; x63] [x7a; x7a]); reflexivity.
Defined.

Lemma gzip_cut_short_leaves_a_partial_output_witness :
  Demo.demo_gunzip [x1f; x8c; x61; x62] = ([x61; x62], false)
  /\ exists w',
       extract_archive Demo.libs "/d/x.gz" None true
         (Demo.world [("/d/x.gz", File [x1f; x8c; x61; x62]);
                      ("/d/x", File [x7a; x7a])])
       = (w', Raise EOFError)
       /\ read_file w' "/d/x" = Some [].
Proof.
  split; [reflexivity|].
  destruct (gzip_cut_short_leaves_a_partial_output Demo.libs "/d/x.gz" None true
              (Demo.world [("/d/x.gz", File [x1f; x8c; x61; x62]);
                           ("/d/x", File [x7a; x7a])])
              [x1f; x8c; x61; x62] [x61; x62])
    as (w' & tr & Heq & _ & Hrd & _); try reflexivity.
  exists w'. split; [exact Heq|]. apply Hrd. reflexivity.
Defined.

Lemma gzip_open_failure_changes_nothing_witness :
  exists w' e,
    extract_archive Demo.libs "/d/y.gz" None true Demo.odd_world = (w', Raise e)
    /\ is_OSError e = true
    /\ fs w' = fs Demo.odd_world.
Proof.
  destruct (gzip_open_failure_changes_nothing Demo.libs "/d/y.gz" None true
              Demo.odd_world)
    as (w' & e & tr & Heq & He & Hfs & _);
    [ reflexivity | reflexivity | reflexivity | right; reflexivity | ].
  exists w', e. split; [exact Heq|]. split; [exact He | exact Hfs].
Defined.

(** ** Zip and tar extraction *)


Lemma zip_reextraction_extracts_nothing_witness :
  extract_archive Demo.libs "/t/a.zip" (Some "/out") false Demo.extracted_world =
  (emits [EvOpen "/t/a.zip" "rb"; EvClose "/t/a.zip";
          EvOpen "/t/a.zip" "rb"; EvClose "/t/a.zip"] Demo.extracted_world,
   Ok ["/out/docs/readme.txt"; "/out/a.txt"]).
Proof.
  apply (zip_reextraction_extracts_nothing Demo.libs "/t/a.zip" (Some "/out")
           Demo.extracted_world Demo.demo_zip_bytes
           ["docs/"; "docs/readme.txt"; "a.txt"]);
    [reflexivity | reflexivity | reflexivity |].
  intros n [<- | [<- | [<- | []]]]; reflexivity.
Defined.

Lemma tar_reextraction_of_files_extracts_nothing_witness :
  extract_archive Demo.flat_libs "/t/f.tgz" (Some "/out") false
    Demo.extracted_world =
  (emits [EvOpen "/t/f.tgz" "rb"; EvClose "/t/f.tgz"] Demo.extracted_world,
   Ok ["/out/data/a.txt"; "/out/data/b.txt"]).
Proof.
  apply (tar_reextraction_of_files_extracts_nothing Demo.flat_libs "/t/f.tgz"
           (Some "/out") Demo.extracted_world Demo.flat_tar_bytes Demo.flat_tar);
    [reflexivity | reflexivity | reflexivity |].
  intros m [<- | [<- | []]]; split; reflexivity.
Defined.


(** ** Fonts *)

Lemma unknown_lang_type_raises_KeyError_witness :
  lang_type_to_font_path Demo.libs (Some "arabic") Demo.fresh_world =
  (Demo.fresh_world, Raises (KeyError (Some "arabic"))).
Proof.
  apply (unknown_lang_type_raises_KeyError Demo.libs (Some "arabic")
           Demo.fresh_world); discriminate.
Defined.

Lemma fonts_are_cached_under_their_own_names_witness :
  destination_path Demo.libs
    "https://cdn.jsdelivr.net/gh/notofonts/notofonts.github.io/fonts/NotoSans/hinted/ttf/NotoSans-Regular.ttf"
    None (_CACHE_DIR Demo.libs)
  <> destination_path Demo.libs
       "https://github.com/MorbZ/OpenSansEmoji/raw/master/OpenSansEmoji.ttf"
       None (_CACHE_DIR Demo.libs).
Proof.
  apply (fonts_are_cached_under_their_own_names Demo.libs None (Some "emoji"));
    [reflexivity | reflexivity | discriminate].
Defined.
